(** * EXIF Make/Model reader of [services/metadataService.ts]

    A shallow embedding of [getExifDeviceData], [parseExifChunk] and
    [getStringFromEntry], with the part of the [DataView] and [String]
    interfaces they use, followed by the properties of the parser.

    - A [DataView] is the list of the bytes it covers.  Its accessors raise
      [RangeError] on a read that leaves the buffer; that is the [Throw]
      outcome of the [exn] monad below, and [try]/[catch] is [catch].
    - Offsets and field values are JavaScript numbers holding non-negative
      integers far below 2^53; they are modelled in [Z].
    - The strings built by [String.fromCharCode] from one byte are strings
      of code units below 256: [string] of the standard library.

    The callers follow: the metadata cell and the state of the page
    ([App.tsx]), the chart ([components/AnalysisChart.tsx]) and the data URL
    of [services/geminiService.ts]. *)

From Stdlib Require Import ZArith QArith Lqa List Bool Lia.
From Stdlib Require Import Sorting.Permutation Sorting.Sorted.
From Stdlib Require Import Strings.Ascii Strings.String Strings.Byte.
Import ListNotations.

#[local] Open Scope string_scope.
#[local] Open Scope Z_scope.

(** ** Exceptions *)

Inductive exn (A : Type) : Type :=
| Ok (a : A)
| Throw.

Arguments Ok {A} a.
Arguments Throw {A}.

Definition bind {A B : Type} (m : exn A) (k : A -> exn B) : exn B :=
  match m with
  | Ok a => k a
  | Throw => Throw
  end.

Notation "x <- m ;; k" := (bind m (fun x => k))
  (at level 61, m at next level, right associativity).

(** [try { body } catch (e) { return null; }] *)
Definition catch {A : Type} (body : exn (option A)) : option A :=
  match body with
  | Ok r => r
  | Throw => None
  end.

(** ** DataView *)

Definition DataView : Type := list byte.

Definition byteLength (view : DataView) : Z := Z.of_nat (List.length view).

Definition byteValue (b : byte) : Z := Z.of_N (Byte.to_N b).

Definition getUint8 (view : DataView) (byteOffset : Z) : exn Z :=
  if (0 <=? byteOffset) && (byteOffset <? byteLength view) then
    match nth_error view (Z.to_nat byteOffset) with
    | Some b => Ok (byteValue b)
    | None => Throw
    end
  else Throw.

Definition getUint16 (view : DataView) (byteOffset : Z) (littleEndian : bool)
  : exn Z :=
  b0 <- getUint8 view byteOffset ;;
  b1 <- getUint8 view (byteOffset + 1) ;;
  Ok (if littleEndian
      then Z.lor (Z.shiftl b1 8) b0
      else Z.lor (Z.shiftl b0 8) b1).

Definition getUint32 (view : DataView) (byteOffset : Z) (littleEndian : bool)
  : exn Z :=
  b0 <- getUint8 view byteOffset ;;
  b1 <- getUint8 view (byteOffset + 1) ;;
  b2 <- getUint8 view (byteOffset + 2) ;;
  b3 <- getUint8 view (byteOffset + 3) ;;
  Ok (if littleEndian
      then Z.lor (Z.shiftl b3 24) (Z.lor (Z.shiftl b2 16) (Z.lor (Z.shiftl b1 8) b0))
      else Z.lor (Z.shiftl b0 24) (Z.lor (Z.shiftl b1 16) (Z.lor (Z.shiftl b2 8) b3))).

(** ** Strings *)

(** [String.fromCharCode(charCode)] for a byte value. *)
Definition fromCharCode (charCode : Z) : string :=
  String (ascii_of_N (Z.to_N charCode)) EmptyString.

(** The code units below 256 that [String.prototype.trim] strips: TAB, LF,
    VT, FF, CR, SPACE and NO-BREAK SPACE. *)
Definition isWhiteSpace (c : ascii) : bool :=
  let n := N_of_ascii c in
  ((9 <=? n) && (n <=? 13) || (n =? 32) || (n =? 160))%N.

Definition isEmpty (s : string) : bool :=
  match s with
  | EmptyString => true
  | String _ _ => false
  end.

Fixpoint trimStart (s : string) : string :=
  match s with
  | EmptyString => EmptyString
  | String c s' => if isWhiteSpace c then trimStart s' else s
  end.

Fixpoint trimEnd (s : string) : string :=
  match s with
  | EmptyString => EmptyString
  | String c s' =>
      let r := trimEnd s' in
      if isWhiteSpace c && isEmpty r then EmptyString else String c r
  end.

Definition trim (s : string) : string := trimEnd (trimStart s).

(** [s.startsWith(p)] *)
Definition startsWith (s p : string) : bool := String.prefix p s.

(** ** getStringFromEntry *)

(** The copy loop of [getStringFromEntry]: [n] is the number of iterations
    left, [count - i]. *)
Fixpoint readChars (n : nat) (view : DataView) (offset i : Z) (str : string)
  : exn string :=
  match n with
  | O => Ok str
  | S n' =>
      if offset + i >=? byteLength view then Ok str
      else
        charCode <- getUint8 view (offset + i) ;;
        if charCode =? 0 then Ok str
        else readChars n' view offset (i + 1) (str ++ fromCharCode charCode)
  end.

Definition getStringFromEntry (view : DataView) (entryOffset tiffStart : Z)
  (littleEndian : bool) : exn string :=
  type <- getUint16 view (entryOffset + 2) littleEndian ;;
  count <- getUint32 view (entryOffset + 4) littleEndian ;;
  if negb (type =? 2) then Ok ""
  else
    valueOffset <- getUint32 view (entryOffset + 8) littleEndian ;;
    let offset :=
      if count <=? 4 then entryOffset + 8 else tiffStart + valueOffset in
    readChars (Z.to_nat count) view offset 0 "".

(** ** parseExifChunk *)

(** The loop over the directory entries: [n] is the number of iterations
    left, [entries - i].  The final value of [i] is returned with the two
    strings. *)
Fixpoint ifdLoop (n : nat) (view : DataView) (dirStart tiffStart : Z)
  (littleEndian : bool) (i : Z) (make model : string)
  : exn (Z * string * string) :=
  match n with
  | O => Ok (i, make, model)
  | S n' =>
      let entryOffset := dirStart + 2 + (i * 12) in
      tag <- getUint16 view entryOffset littleEndian ;;
      if tag =? 0x010F then
        make' <- getStringFromEntry view entryOffset tiffStart littleEndian ;;
        ifdLoop n' view dirStart tiffStart littleEndian (i + 1) make' model
      else if tag =? 0x0110 then
        model' <- getStringFromEntry view entryOffset tiffStart littleEndian ;;
        ifdLoop n' view dirStart tiffStart littleEndian (i + 1) make model'
      else
        ifdLoop n' view dirStart tiffStart littleEndian (i + 1) make model
  end.

(** Lines 102-112: the composition of the two strings. *)
Definition composeDevice (make model : string) : option string :=
  if negb (isEmpty make) || negb (isEmpty model) then
    let cleanMake := trim make in
    let cleanModel := trim model in
    if startsWith cleanModel cleanMake then Some cleanModel
    else Some (trim (cleanMake ++ " " ++ cleanModel))
  else None.

(** The body of [parseExifChunk] once [littleEndian] is known (lines
    76-112). *)
Definition readDirectory (view : DataView) (tiffStart : Z)
  (littleEndian : bool) : exn (option string) :=
  magic <- getUint16 view (tiffStart + 2) littleEndian ;;
  if negb (magic =? 0x002A) then Ok None
  else
    firstIFDOffset <- getUint32 view (tiffStart + 4) littleEndian ;;
    if firstIFDOffset <? 0x00000008 then Ok None
    else
      let dirStart := tiffStart + firstIFDOffset in
      entries <- getUint16 view dirStart littleEndian ;;
      r <- ifdLoop (Z.to_nat entries) view dirStart tiffStart littleEndian
             0 "" "" ;;
      let '(_, make, model) := r in
      Ok (composeDevice make model).

Definition parseExifChunk_body (view : DataView) (tiffStart : Z)
  : exn (option string) :=
  byteOrder <- getUint16 view tiffStart false ;;
  let littleEndian := byteOrder =? 0x4949 in
  readDirectory view tiffStart littleEndian.

Definition parseExifChunk (view : DataView) (tiffStart : Z) : option string :=
  catch (parseExifChunk_body view tiffStart).

(** ** getExifDeviceData *)

(** What one iteration of the marker loop does. *)
Inductive step : Type :=
| Continue (offset : Z)
| Break
| Resolve (result : option string).

Definition markerStep (view : DataView) (offset : Z) : exn step :=
  b <- getUint8 view offset ;;
  if negb (b =? 0xFF) then Ok Break
  else
    marker <- getUint8 view (offset + 1) ;;
    if marker =? 0xE1 then
      chunkLength <- getUint16 view (offset + 2) false ;;
      sig <- getUint32 view (offset + 4) false ;;
      if sig =? 0x45786966 then Ok (Resolve (parseExifChunk view (offset + 10)))
      else Ok (Continue (offset + (2 + chunkLength)))
    else if marker =? 0xDA then Ok Break
    else
      chunkLength <- getUint16 view (offset + 2) false ;;
      Ok (Continue (offset + (2 + chunkLength))).

(** [while (offset < length) { ... }], with a bound on the number of
    iterations; [None] is "bound reached". *)
Fixpoint markerLoop (fuel : nat) (view : DataView) (offset : Z)
  : option (exn (option string)) :=
  if offset <? byteLength view then
    match fuel with
    | O => None
    | S fuel' =>
        match markerStep view offset with
        | Throw => Some Throw
        | Ok Break => Some (Ok None)
        | Ok (Resolve result) => Some (Ok result)
        | Ok (Continue offset') => markerLoop fuel' view offset'
        end
    end
  else Some (Ok None).

(** The [try] block of [reader.onload] (lines 17-57); the value is what is
    passed to [resolve]. *)
Definition onload_body (fuel : nat) (view : DataView)
  : option (exn (option string)) :=
  match getUint16 view 0 false with
  | Throw => Some Throw
  | Ok soi =>
      if negb (soi =? 0xFFD8) then Some (Ok None)
      else markerLoop fuel view 2
  end.

(** [reader.onload]: the offset grows by at least 2 in every iteration, so
    [length view] iterations are enough ([markerLoop_enough] below). *)
Definition onload (view : DataView) : option string :=
  match onload_body (List.length view) view with
  | Some r => catch r
  | None => None
  end.

Record File : Type := mkFile { type : string; bytes : list byte }.

(** [file.slice(0, 65536)] *)
Definition slice64k (l : list byte) : list byte := firstn (Z.to_nat 65536) l.

Definition getExifDeviceData (file : File) : option string :=
  if negb (String.eqb (type file) "image/jpeg")
     && negb (String.eqb (type file) "image/jpg")
  then None
  else onload (slice64k (bytes file)).

(** * Vocabulary of the statements *)

(** A string that does not start with white space. *)
Definition headClean (s : string) : bool :=
  match s with
  | EmptyString => true
  | String c _ => negb (isWhiteSpace c)
  end.

(** Where the [i]-th entry of a directory starts, and the tag read there. *)
Definition entryOffsetOf (dirStart i : Z) : Z := dirStart + 2 + (i * 12).

Definition entryTag (view : DataView) (dirStart : Z) (le : bool) (i : Z)
  : exn Z :=
  getUint16 view (entryOffsetOf dirStart i) le.

Definition tagMake : Z := 0x010F.
Definition tagModel : Z := 0x0110.

(** [rawStrings view tiffStart make model]: the directory reader gets
    through the TIFF header and the whole 0th IFD of [view] without a fault,
    and leaves the loop with [make] and [model] in its two variables. *)
Definition rawStrings (view : DataView) (tiffStart : Z) (make model : string)
  : Prop :=
  exists byteOrder firstIFDOffset entries i,
    let littleEndian := byteOrder =? 0x4949 in
    getUint16 view tiffStart false = Ok byteOrder
    /\ getUint16 view (tiffStart + 2) littleEndian = Ok 0x002A
    /\ getUint32 view (tiffStart + 4) littleEndian = Ok firstIFDOffset
    /\ 8 <= firstIFDOffset
    /\ getUint16 view (tiffStart + firstIFDOffset) littleEndian = Ok entries
    /\ ifdLoop (Z.to_nat entries) view (tiffStart + firstIFDOffset) tiffStart
         littleEndian 0 "" "" = Ok (i, make, model).

(** The decoding as the specification words it: of the [count] bytes that
    start at [start], as far as the buffer goes, the ones before the first
    NUL. *)
Fixpoint takeUntilNul (l : list byte) : list byte :=
  match l with
  | [] => []
  | b :: l' => if byteValue b =? 0 then [] else b :: takeUntilNul l'
  end.

Fixpoint stringOfBytes (l : list byte) : string :=
  match l with
  | [] => EmptyString
  | b :: l' => String (ascii_of_byte b) (stringOfBytes l')
  end.

Definition spec_decodeString (view : DataView) (start count : Z) : string :=
  stringOfBytes
    (takeUntilNul (firstn (Z.to_nat count) (skipn (Z.to_nat start) view))).

(** The 32-bit value of the four characters of the signature. *)
Definition exifSig : Z := 0x45786966.

(** A marker segment at [offset]: [0xFF], a marker code, a 16-bit length. *)
Definition segmentAt (view : DataView) (offset marker len : Z) : Prop :=
  getUint8 view offset = Ok 0xFF
  /\ getUint8 view (offset + 1) = Ok marker
  /\ getUint16 view (offset + 2) false = Ok len.

(** An APP1 segment carrying the Exif signature. *)
Definition exifApp1At (view : DataView) (offset : Z) : Prop :=
  exists len, segmentAt view offset 0xE1 len
              /\ getUint32 view (offset + 4) false = Ok exifSig.

(** An APP1 segment whose first four payload bytes are not the signature. *)
Definition otherApp1At (view : DataView) (offset len : Z) : Prop :=
  segmentAt view offset 0xE1 len
  /\ exists sig, getUint32 view (offset + 4) false = Ok sig /\ sig <> exifSig.

(** A segment the scanner steps over: neither SOS nor APP1. *)
Definition plainSegmentAt (view : DataView) (offset len : Z) : Prop :=
  exists marker, segmentAt view offset marker len
                 /\ marker <> 0xE1 /\ marker <> 0xDA.

(** [skips view a b]: from [a], a run of segments that are stepped over
    ends at [b]. *)
Inductive skips (view : DataView) : Z -> Z -> Prop :=
| skips_here (a : Z) : skips view a a
| skips_next (a len b : Z) :
    plainSegmentAt view a len \/ otherApp1At view a len ->
    skips view (a + (2 + len)) b ->
    skips view a b.

(** ** Sample buffers *)

Definition bytesOf (l : list Z) : list byte :=
  map (fun z => match Byte.of_N (Z.to_N z) with
                | Some b => b
                | None => x00
                end) l.

Definition asciiBytes (s : string) : list byte :=
  map byte_of_ascii (list_ascii_of_string s).

Definition soi : list byte := bytesOf [0xFF; 0xD8].

(** An APP1 segment with the given payload. *)
Definition app1 (payload : list byte) : list byte :=
  let len := 2 + Z.of_nat (List.length payload) in
  (bytesOf [0xFF; 0xE1; len / 256; len mod 256] ++ payload)%list.

Definition exifSignature : list byte :=
  (asciiBytes "Exif" ++ bytesOf [0; 0])%list.

(** A big-endian directory entry. *)
Definition entryBE (tag type count : Z) (value : list byte) : list byte :=
  (bytesOf [tag / 256; tag mod 256; type / 256; type mod 256;
            0; 0; count / 256; count mod 256] ++ value)%list.

(** A big-endian TIFF structure whose 0th IFD holds two entries with
    out-of-line values, the strings [s1] and [s2] with their final NUL. *)
Definition tiffTwo (order : list byte) (tag1 type1 tag2 type2 : Z)
  (s1 s2 : string) : list byte :=
  let l1 := Z.of_nat (String.length s1) + 1 in
  let l2 := Z.of_nat (String.length s2) + 1 in
  (order ++ bytesOf [0x00; 0x2A; 0; 0; 0; 8]
     ++ bytesOf [0; 2]
     ++ entryBE tag1 type1 l1 (bytesOf [0; 0; 0; 38])
     ++ entryBE tag2 type2 l2 (bytesOf [0; 0; 0; 38 + l1])
     ++ bytesOf [0; 0; 0; 0]
     ++ asciiBytes s1 ++ bytesOf [0]
     ++ asciiBytes s2 ++ bytesOf [0])%list.

Definition tiffMakeModel (order : list byte) (make model : string)
  : list byte :=
  tiffTwo order 0x010F 2 0x0110 2 make model.

(** A JPEG prefix: SOI, then one Exif APP1 segment.  The TIFF structure
    starts at offset 12, its directory at 20, the two entries at 22 and 34,
    the two values at 50 and after. *)
Definition jpegMakeModel (make model : string) : DataView :=
  (soi ++ app1 (exifSignature ++ tiffMakeModel (asciiBytes "MM") make model))%list.

(** The same with a byte-order mark that is neither II nor MM. *)
Definition jpegNoOrder : DataView :=
  (soi ++ app1 (exifSignature
                  ++ tiffMakeModel (bytesOf [0; 0]) "Apple" "iPhone 14 Pro"))%list.

(** Two entries tagged Make. *)
Definition jpegTwoMakes : DataView :=
  (soi ++ app1 (exifSignature
                  ++ tiffTwo (asciiBytes "MM") 0x010F 2 0x010F 2
                       "First" "Second"))%list.

(** An entry tagged Make of type SHORT, then a Model. *)
Definition jpegShortMake : DataView :=
  (soi ++ app1 (exifSignature
                  ++ tiffTwo (asciiBytes "MM") 0x010F 3 0x0110 2
                       "Canon" "EOS R5"))%list.

(** An XMP APP1 segment before the Exif one. *)
Definition jpegXmpFirst : DataView :=
  (soi ++ app1 (asciiBytes "http://ns.adobe.com/xap/1.0/")
       ++ app1 (exifSignature
                  ++ tiffMakeModel (asciiBytes "MM") "Apple" "iPhone 14 Pro"))%list.

(** A TIFF header with 0x002B where the magic number should be. *)
Definition tiffBadMagic : DataView :=
  (asciiBytes "MM" ++ bytesOf [0x00; 0x2B; 0; 0; 0; 8; 0; 0])%list.

(** A Make entry whose count, 200, claims more bytes than the buffer holds
    after offset 50, and a Model entry of count 3 stored in its own value
    field. *)
Definition jpegInlineAndLong : DataView :=
  (soi ++ app1 (exifSignature
                  ++ asciiBytes "MM" ++ bytesOf [0x00; 0x2A; 0; 0; 0; 8]
                  ++ bytesOf [0; 2]
                  ++ entryBE 0x010F 2 200 (bytesOf [0; 0; 0; 38])
                  ++ entryBE 0x0110 2 3 (asciiBytes "D5" ++ bytesOf [0; 0])
                  ++ bytesOf [0; 0; 0; 0]
                  ++ asciiBytes "Nikon"))%list.


(** * The chart of [components/AnalysisChart.tsx]

    A JavaScript number that is finite is a rational, and on finite numbers
    [>=] and the sign of a difference are those of the rationals: the scores
    are modelled in [Q]. *)

Record DetectedTool : Type := mkTool {
  name : string;
  likelihoodScore : Q;
  reasoning : string
}.

(** [(a, b) => b.likelihoodScore - a.likelihoodScore] *)
Definition byScoreDescending (a b : DetectedTool) : Q :=
  (likelihoodScore b - likelihoodScore a)%Q.

(** [Array.prototype.sort(comparefn)]: the sort is stable, and [a] comes
    before [b] when [comparefn(a, b) < 0].  Each element is put in front of
    the first element of the sorted rest that it does not have to follow. *)
Fixpoint insertSorted {A : Type} (comparefn : A -> A -> Q) (x : A)
  (l : list A) : list A :=
  match l with
  | [] => [x]
  | y :: l' =>
      if Qle_bool (comparefn x y) 0 then x :: y :: l'
      else y :: insertSorted comparefn x l'
  end.

Definition arraySort {A : Type} (comparefn : A -> A -> Q) (l : list A)
  : list A :=
  fold_right (insertSorted comparefn) [] l.

(** [[...data].sort((a, b) => b.likelihoodScore - a.likelihoodScore)] *)
Definition sortedData (data : list DetectedTool) : list DetectedTool :=
  arraySort byScoreDescending data.

Definition getBarColor (score : Q) : string :=
  if Qle_bool 8 score then "#ef4444"
  else if Qle_bool 5 score then "#f59e0b"
  else "#3b82f6".

(** [a] may stand before [b] in a list by descending score. *)
Definition scoreDescending (a b : DetectedTool) : Prop :=
  (likelihoodScore b <= likelihoodScore a)%Q.

(** The [fill] of the cells, in the order of the bars. *)
Definition barColors (data : list DetectedTool) : list string :=
  map (fun entry => getBarColor (likelihoodScore entry)) (sortedData data).

(** * The data URL of [services/geminiService.ts] *)

(** [s.split(sep)] for a separator of one character. *)
Fixpoint split (sep : ascii) (s : string) : list string :=
  match s with
  | EmptyString => [EmptyString]
  | String c s' =>
      if Ascii.eqb c sep then EmptyString :: split sep s'
      else
        match split sep s' with
        | [] => [String c EmptyString]
        | segment :: rest => String c segment :: rest
        end
  end.

Record InlineData : Type := mkInlineData {
  data : option string;
  mimeType : string
}.

(** [reader.onloadend] of [fileToGenerativePart]: [base64String] is
    [reader.result]; an index beyond the array gives [undefined], here
    [None]. *)
Definition fileToGenerativePart (file : File) (base64String : string)
  : InlineData :=
  let base64Data := nth_error (split "," base64String) 1 in
  {| data := base64Data; mimeType := type file |}.

(** A string without a comma. *)
Fixpoint noComma (s : string) : bool :=
  match s with
  | EmptyString => true
  | String c s' => negb (Ascii.eqb c ",") && noComma s'
  end.

(** * The state of [App.tsx]

    The five [useState] cells are the fields of a record; a handler is the
    function from the state before it to the state after its setter calls.
    [handleAnalyze] is asynchronous: [handleAnalyze_start] is what it does
    up to its [await] and [handleAnalyze_settle] what it does once
    [Promise.all] has settled, for the file it was started with. *)

Inductive AnalysisState : Type := IDLE | ANALYZING | SUCCESS | ERROR.

Record AnalysisResult : Type := mkResult {
  overallAssessment : string;
  estimatedEditLayerCount : Q;
  originalDevice : string;
  metadataDevice : option string;
  detectedTools : list DetectedTool
}.

Record AppState : Type := mkApp {
  imageFile : option File;
  imagePreview : option string;
  analysisState : AnalysisState;
  result : option AnalysisResult;
  errorMsg : option string
}.

Definition initialState : AppState :=
  {| imageFile := None; imagePreview := None; analysisState := IDLE;
     result := None; errorMsg := None |}.

(** Lines 17-33; [file] is [event.target.files?.[0]] and [objectUrl] what
    [URL.createObjectURL] returns.  The [alert] branch leaves the state. *)
Definition handleFileChange (file : option File) (objectUrl : string)
  (st : AppState) : AppState :=
  match file with
  | Some f =>
      if startsWith (type f) "image/" then
        {| imageFile := Some f; imagePreview := Some objectUrl;
           result := None; analysisState := IDLE; errorMsg := None |}
      else st
  | None => st
  end.

(** Lines 133-139, the button that removes the image. *)
Definition removeImage (st : AppState) : AppState :=
  {| imageFile := None; imagePreview := None; result := None;
     analysisState := IDLE; errorMsg := errorMsg st |}.

(** Lines 36-39: the state after the synchronous part, and the file the
    two promises are started with ([None] when it returns at once). *)
Definition handleAnalyze_start (st : AppState) : AppState * option File :=
  match imageFile st with
  | None => (st, None)
  | Some f =>
      ({| imageFile := imageFile st; imagePreview := imagePreview st;
          analysisState := ANALYZING; result := result st;
          errorMsg := None |}, Some f)
  end.

(** How [analyzeImageEdits] settles: with the parsed response, or rejected
    with an error whose [message] may be missing. *)
Inductive settled : Type :=
| Fulfilled (aiData : AnalysisResult)
| Rejected (message : option string).

(** [{ ...aiData, metadataDevice: metadataDevice }] *)
Definition withMetadataDevice (aiData : AnalysisResult)
  (device : option string) : AnalysisResult :=
  {| overallAssessment := overallAssessment aiData;
     estimatedEditLayerCount := estimatedEditLayerCount aiData;
     originalDevice := originalDevice aiData;
     metadataDevice := device;
     detectedTools := detectedTools aiData |}.

(** [err.message || "Failed to analyze image. Please try again."] *)
Definition errorText (message : option string) : string :=
  match message with
  | Some m => if isEmpty m then "Failed to analyze image. Please try again." else m
  | None => "Failed to analyze image. Please try again."
  end.

(** Lines 43-60, after the [await]; [getExifDeviceData] never rejects. *)
Definition handleAnalyze_settle (file : File) (outcome : settled)
  (st : AppState) : AppState :=
  match outcome with
  | Fulfilled aiData =>
      {| imageFile := imageFile st; imagePreview := imagePreview st;
         result := Some (withMetadataDevice aiData (getExifDeviceData file));
         analysisState := SUCCESS; errorMsg := errorMsg st |}
  | Rejected message =>
      {| imageFile := imageFile st; imagePreview := imagePreview st;
         result := result st;
         analysisState := ERROR; errorMsg := Some (errorText message) |}
  end.

(** What can happen to the page: the state, and the files of the analyses
    that have not settled yet. *)
Record Session : Type := mkSession {
  app : AppState;
  pending : list File
}.

Inductive event : Type :=
| FileChosen (file : option File) (objectUrl : string)
| RemoveClicked
| AnalyzeClicked
| AnalysisSettled (n : nat) (outcome : settled).

Fixpoint removeNth {A : Type} (n : nat) (l : list A) : list A :=
  match n, l with
  | _, [] => []
  | O, _ :: l' => l'
  | S n', x :: l' => x :: removeNth n' l'
  end.

(** An event as the rendered page allows it: the file dialog is opened from
    the drop zone only without a preview (line 115), the remove button is
    there only with one (line 125), the Analyze button only with a file in
    state IDLE (line 163), and only an analysis under way can settle.
    [None]: the event cannot happen. *)
Definition userStep (s : Session) (e : event) : option Session :=
  match e with
  | FileChosen file objectUrl =>
      match imagePreview (app s) with
      | None => Some {| app := handleFileChange file objectUrl (app s);
                        pending := pending s |}
      | Some _ => None
      end
  | RemoveClicked =>
      match imagePreview (app s) with
      | Some _ => Some {| app := removeImage (app s); pending := pending s |}
      | None => None
      end
  | AnalyzeClicked =>
      match imageFile (app s), analysisState (app s) with
      | Some _, IDLE =>
          let '(st, started) := handleAnalyze_start (app s) in
          Some {| app := st;
                  pending := match started with
                             | Some f => (pending s ++ [f])%list
                             | None => pending s
                             end |}
      | _, _ => None
      end
  | AnalysisSettled n outcome =>
      match nth_error (pending s) n with
      | Some f => Some {| app := handleAnalyze_settle f outcome (app s);
                          pending := removeNth n (pending s) |}
      | None => None
      end
  end.

Fixpoint userRun (s : Session) (events : list event) : option Session :=
  match events with
  | [] => Some s
  | e :: events' =>
      match userStep s e with
      | Some s' => userRun s' events'
      | None => None
      end
  end.

Definition initialSession : Session :=
  {| app := initialState; pending := [] |}.


(** ** The metadata cell of [App.tsx]

    Lines 216-220: [result.metadataDevice ? <span>device</span> : <span>Not
    found in file</span>].  A string is truthy when it is not empty. *)
Inductive metadataCell : Type :=
| DeviceName (device : string)
| NotFoundInFile.

Definition renderMetadataCell (metadataDevice : option string) : metadataCell :=
  match metadataDevice with
  | Some device => if isEmpty device then NotFoundInFile else DeviceName device
  | None => NotFoundInFile
  end.

(** A string without the code unit 0. *)
Fixpoint noNul (s : string) : bool :=
  match s with
  | EmptyString => true
  | String c s' => negb (Ascii.eqb c zero) && noNul s'
  end.

(** ** More sample buffers *)

(** A Start-Of-Scan segment before the Exif APP1 segment. *)
Definition jpegSosFirst : DataView :=
  (soi ++ bytesOf [0xFF; 0xDA; 0; 2]
       ++ app1 (exifSignature
                  ++ tiffMakeModel (asciiBytes "MM") "Apple" "iPhone 14 Pro"))%list.

(** An APP0 segment whose length, 16, leads beyond the 8 bytes present. *)
Definition jpegSegmentPastEnd : DataView :=
  bytesOf [0xFF; 0xD8; 0xFF; 0xE0; 0x00; 0x10; 0x4A; 0x46].

(** A directory whose two entries are Orientation and Software. *)
Definition jpegNoDeviceTags : DataView :=
  (soi ++ app1 (exifSignature
                  ++ tiffTwo (asciiBytes "MM") 0x0112 3 0x0131 2
                       "Canon" "Editor"))%list.

(** A Make entry of type ASCII followed by a Make entry of type SHORT. *)
Definition jpegMakeCleared : DataView :=
  (soi ++ app1 (exifSignature
                  ++ tiffTwo (asciiBytes "MM") 0x010F 2 0x010F 3
                       "Canon" "EOS R5"))%list.

(** * Properties *)

(** ** The exception monad *)

Lemma bind_Ok {A B : Type} (m : exn A) (k : A -> exn B) (b : B) :
  bind m k = Ok b -> exists a, m = Ok a /\ k a = Ok b.
Proof.
  destruct m as [a|]; simpl; intros H; [exists a; auto | discriminate].
Qed.

Lemma Ok_inj {A : Type} (a b : A) : Ok a = Ok b -> a = b.
Proof. congruence. Qed.

(** Peel the reads off a run that ends normally. *)
Ltac peel H :=
  let x := fresh "v" in
  let Hx := fresh "Hv" in
  apply bind_Ok in H; destruct H as (x & Hx & H).

(** ** Trimming *)

Lemma isEmpty_true (s : string) : isEmpty s = true <-> s = "".
Proof. destruct s; simpl; split; congruence. Qed.

Lemma isEmpty_false (s : string) : isEmpty s = false <-> s <> "".
Proof. destruct s; simpl; split; congruence. Qed.

Lemma trimStart_headClean (s : string) : headClean (trimStart s) = true.
Proof.
  induction s as [|c s IH]; simpl; [reflexivity|].
  destruct (isWhiteSpace c) eqn:E; [exact IH|]. simpl. now rewrite E.
Qed.

Lemma headClean_trimStart (s : string) :
  headClean s = true -> trimStart s = s.
Proof.
  destruct s as [|c s]; simpl; [reflexivity|].
  now destruct (isWhiteSpace c).
Qed.

Lemma trimEnd_headClean (s : string) :
  headClean s = true -> headClean (trimEnd s) = true.
Proof.
  destruct s as [|c s]; simpl; [reflexivity|]. intros H.
  destruct (isWhiteSpace c) eqn:E; [discriminate|]. simpl. now rewrite E.
Qed.

Lemma trimEnd_idem (s : string) : trimEnd (trimEnd s) = trimEnd s.
Proof.
  induction s as [|c s IH]; simpl; [reflexivity|].
  destruct (isWhiteSpace c && isEmpty (trimEnd s)) eqn:E; [reflexivity|].
  simpl. now rewrite IH, E.
Qed.

Lemma trimEnd_app (a b : string) :
  trimEnd (a ++ b) =
  if isEmpty (trimEnd b) then trimEnd a else (a ++ trimEnd b)%string.
Proof.
  induction a as [|c a IH]; simpl.
  - now destruct (trimEnd b).
  - rewrite IH. destruct (isEmpty (trimEnd b)) eqn:E; [reflexivity|].
    replace (isEmpty (a ++ trimEnd b)) with false;
      [now rewrite andb_false_r|].
    destruct a; simpl; auto.
Qed.

Lemma trim_headClean (s : string) : headClean (trim s) = true.
Proof. apply trimEnd_headClean, trimStart_headClean. Qed.

Lemma trim_trimEnd (s : string) : trimEnd (trim s) = trim s.
Proof. apply trimEnd_idem. Qed.

Lemma trim_idem (s : string) : trim (trim s) = trim s.
Proof.
  unfold trim at 1. rewrite headClean_trimStart by apply trim_headClean.
  apply trim_trimEnd.
Qed.

Lemma startsWith_empty (s : string) : startsWith s "" = true.
Proof. now destruct s. Qed.

(** Joining two trimmed strings with a space and trimming again. *)
Lemma trim_join (a b : string) :
  trim (trim a ++ " " ++ trim b) =
  if isEmpty (trim a) then trim b
  else if isEmpty (trim b) then trim a
  else (trim a ++ " " ++ trim b)%string.
Proof.
  destruct (isEmpty (trim a)) eqn:Ea.
  - apply isEmpty_true in Ea. rewrite Ea. simpl.
    change (trim (String " " (trim b))) with (trim (trim b)). apply trim_idem.
  - assert (Hh : headClean (trim a ++ " " ++ trim b) = true).
    { pose proof (trim_headClean a) as H. destruct (trim a); [discriminate|].
      exact H. }
    unfold trim at 1. rewrite (headClean_trimStart _ Hh), trimEnd_app.
    simpl. rewrite !trim_trimEnd.
    destruct (isEmpty (trim b)) eqn:Eb; simpl; reflexivity.
Qed.

(** What [composeDevice] returns, case by case. *)
Lemma composeDevice_cases (make model : string) :
  make <> "" \/ model <> "" ->
  composeDevice make model =
  Some (if startsWith (trim model) (trim make) then trim model
        else if isEmpty (trim model) then trim make
        else (trim make ++ " " ++ trim model)%string).
Proof.
  intros H. unfold composeDevice.
  replace (negb (isEmpty make) || negb (isEmpty model)) with true.
  2:{ symmetry. apply orb_true_iff.
      destruct H as [H|H]; apply isEmpty_false in H; rewrite H; auto. }
  cbv zeta. destruct (startsWith (trim model) (trim make)) eqn:E;
    [reflexivity|].
  rewrite trim_join. destruct (isEmpty (trim make)) eqn:Em; [|reflexivity].
  apply isEmpty_true in Em. rewrite Em, startsWith_empty in E. discriminate.
Qed.

(** ** DataView reads *)

Lemma getUint8_Ok (view : DataView) (o v : Z) :
  getUint8 view o = Ok v -> 0 <= o < byteLength view /\ 0 <= v.
Proof.
  unfold getUint8. destruct (0 <=? o) eqn:E1; simpl; [|discriminate].
  destruct (o <? byteLength view) eqn:E2; [|discriminate].
  destruct (nth_error view (Z.to_nat o)) as [b|]; [|discriminate].
  intros H. injection H as <-. unfold byteValue. lia.
Qed.

Ltac bits_nonneg :=
  repeat match goal with
    | |- 0 <= Z.lor _ _ => apply Z.lor_nonneg; split
    | |- 0 <= Z.shiftl _ _ => apply Z.shiftl_nonneg
    end; lia.

Lemma getUint16_Ok (view : DataView) (o v : Z) (le : bool) :
  getUint16 view o le = Ok v -> 0 <= o /\ o + 2 <= byteLength view /\ 0 <= v.
Proof.
  unfold getUint16. intros H. peel H. peel H.
  apply getUint8_Ok in Hv, Hv0. apply Ok_inj in H. subst v.
  split; [lia|]. split; [lia|].
  destruct le; bits_nonneg.
Qed.

Lemma getUint32_Ok (view : DataView) (o v : Z) (le : bool) :
  getUint32 view o le = Ok v -> 0 <= o /\ o + 4 <= byteLength view /\ 0 <= v.
Proof.
  unfold getUint32. intros H. peel H. peel H. peel H. peel H.
  apply getUint8_Ok in Hv, Hv0, Hv1, Hv2. apply Ok_inj in H. subst v.
  split; [lia|]. split; [lia|].
  destruct le; bits_nonneg.
Qed.


(** ** The directory reader *)

Lemma readDirectory_Some (view : DataView) (tiffStart : Z) (le : bool)
  (s : string) :
  readDirectory view tiffStart le = Ok (Some s) ->
  exists firstIFDOffset entries i make model,
    getUint16 view (tiffStart + 2) le = Ok 0x002A
    /\ getUint32 view (tiffStart + 4) le = Ok firstIFDOffset
    /\ 8 <= firstIFDOffset
    /\ getUint16 view (tiffStart + firstIFDOffset) le = Ok entries
    /\ ifdLoop (Z.to_nat entries) view (tiffStart + firstIFDOffset) tiffStart
         le 0 "" "" = Ok (i, make, model)
    /\ composeDevice make model = Some s.
Proof.
  unfold readDirectory. intros H. peel H.
  destruct (v =? 0x002A) eqn:Em; simpl in H; [|discriminate].
  apply Z.eqb_eq in Em. subst v. peel H.
  destruct (v <? 8) eqn:Ei; [discriminate|]. apply Z.ltb_ge in Ei.
  peel H. peel H. destruct v1 as [[i make] model]. injection H as H.
  exists v, v0, i, make, model. auto 10.
Qed.

Lemma parseExifChunk_Some (view : DataView) (tiffStart : Z) (s : string) :
  parseExifChunk view tiffStart = Some s ->
  exists make model,
    rawStrings view tiffStart make model /\ composeDevice make model = Some s.
Proof.
  unfold parseExifChunk, parseExifChunk_body. intros H.
  destruct (getUint16 view tiffStart false) as [bo|] eqn:Eb;
    simpl in H; [|discriminate].
  destruct (readDirectory view tiffStart (bo =? 0x4949)) as [r|] eqn:Er;
    simpl in H; [|discriminate].
  subst r. apply readDirectory_Some in Er.
  destruct Er as (ifd & entries & i & make & model & H1 & H2 & H3 & H4 & H5 & H6).
  exists make, model. split; [|exact H6].
  exists bo, ifd, entries, i. cbv zeta. auto 10.
Qed.

Lemma parseExifChunk_raw (view : DataView) (tiffStart : Z)
  (make model : string) :
  rawStrings view tiffStart make model ->
  parseExifChunk view tiffStart = composeDevice make model.
Proof.
  intros (bo & ifd & entries & i & H0 & H1 & H2 & H3 & H4 & H5).
  unfold parseExifChunk, parseExifChunk_body, readDirectory.
  rewrite H0. simpl. rewrite H1. simpl. rewrite H2. simpl.
  replace (ifd <? 8) with false by (symmetry; apply Z.ltb_ge; lia).
  rewrite H4. simpl. rewrite H5. reflexivity.
Qed.

(** ** The loop over the directory entries *)

(** One iteration that does not raise: the tag was read, the variable of
    that tag (if any) was assigned, the other kept. *)
Lemma ifdLoop_S (n : nat) (view : DataView) (ds ts : Z) (le : bool) (i : Z)
  (mk md : string) (r : Z * string * string) :
  ifdLoop (S n) view ds ts le i mk md = Ok r ->
  exists tag mk1 md1,
    entryTag view ds le i = Ok tag
    /\ (tag = tagMake ->
        getStringFromEntry view (entryOffsetOf ds i) ts le = Ok mk1 /\ md1 = md)
    /\ (tag = tagModel ->
        getStringFromEntry view (entryOffsetOf ds i) ts le = Ok md1 /\ mk1 = mk)
    /\ (tag <> tagMake -> mk1 = mk)
    /\ (tag <> tagModel -> md1 = md)
    /\ ifdLoop n view ds ts le (i + 1) mk1 md1 = Ok r.
Proof.
  unfold entryTag, entryOffsetOf, tagMake, tagModel.
  cbn [ifdLoop]. cbv zeta. intros H. peel H. exists v.
  destruct (v =? 271) eqn:E1.
  - apply Z.eqb_eq in E1. subst v. peel H. exists v, md.
    repeat (split; [first [assumption | intros; first [lia | auto]]|]).
    assumption.
  - apply Z.eqb_neq in E1. destruct (v =? 272) eqn:E2.
    + apply Z.eqb_eq in E2. subst v. peel H. exists mk, v.
      repeat (split; [first [assumption | intros; first [lia | auto]]|]).
      assumption.
    + apply Z.eqb_neq in E2. exists mk, md.
      repeat (split; [first [assumption | intros; first [lia | auto]]|]).
      assumption.
Qed.

(** On a normal exit [i] has been incremented once per iteration. *)
Lemma ifdLoop_final_i (n : nat) (view : DataView) (ds ts : Z) (le : bool) :
  forall i mk md i' mk' md',
    ifdLoop n view ds ts le i mk md = Ok (i', mk', md') ->
    i' = i + Z.of_nat n.
Proof.
  induction n as [|n IH]; intros i mk md i' mk' md' H.
  - simpl in H. injection H as <- _ _. lia.
  - apply ifdLoop_S in H. destruct H as (tag & mk1 & md1 & _ & _ & _ & _ & _ & H).
    apply IH in H. lia.
Qed.


(** Without an entry tagged Make, [make] is left as it was. *)
Lemma ifdLoop_make_none (n : nat) (view : DataView) (ds ts : Z) (le : bool) :
  forall i mk md i' mk' md',
    ifdLoop n view ds ts le i mk md = Ok (i', mk', md') ->
    (forall j, i <= j < i + Z.of_nat n -> entryTag view ds le j <> Ok tagMake) ->
    mk' = mk.
Proof.
  induction n as [|n IH]; intros i mk md i' mk' md' H Hno.
  - simpl in H. now injection H as _ <- _.
  - apply ifdLoop_S in H.
    destruct H as (tag & mk1 & md1 & Ht & _ & _ & Hkeep & _ & H).
    assert (Hmk : mk1 = mk).
    { apply Hkeep. intros ->. apply (Hno i); [lia|exact Ht]. }
    subst mk1. apply (IH _ _ _ _ _ _ H). intros j Hj. apply Hno. lia.
Qed.

Lemma ifdLoop_model_none (n : nat) (view : DataView) (ds ts : Z) (le : bool) :
  forall i mk md i' mk' md',
    ifdLoop n view ds ts le i mk md = Ok (i', mk', md') ->
    (forall j, i <= j < i + Z.of_nat n -> entryTag view ds le j <> Ok tagModel) ->
    md' = md.
Proof.
  induction n as [|n IH]; intros i mk md i' mk' md' H Hno.
  - simpl in H. now injection H as _ _ <-.
  - apply ifdLoop_S in H.
    destruct H as (tag & mk1 & md1 & Ht & _ & _ & _ & Hkeep & H).
    assert (Hmd : md1 = md).
    { apply Hkeep. intros ->. apply (Hno i); [lia|exact Ht]. }
    subst md1. apply (IH _ _ _ _ _ _ H). intros j Hj. apply Hno. lia.
Qed.

(** The value of [make] on exit is the one decoded from the last entry
    tagged Make; likewise for [model]. *)
Lemma ifdLoop_make_last (n : nat) (view : DataView) (ds ts : Z) (le : bool) :
  forall i mk md i' mk' md',
    ifdLoop n view ds ts le i mk md = Ok (i', mk', md') ->
    forall k, i <= k < i + Z.of_nat n ->
      entryTag view ds le k = Ok tagMake ->
      (forall j, k < j < i + Z.of_nat n -> entryTag view ds le j <> Ok tagMake) ->
      getStringFromEntry view (entryOffsetOf ds k) ts le = Ok mk'.
Proof.
  induction n as [|n IH]; intros i mk md i' mk' md' H k Hk Hkt Hlast; [lia|].
  apply ifdLoop_S in H.
  destruct H as (tag & mk1 & md1 & Ht & Hmk & _ & _ & _ & H).
  destruct (Z.eq_dec k i) as [->|Hne].
  - rewrite Hkt in Ht. apply Ok_inj in Ht. subst tag.
    destruct (Hmk eq_refl) as [Hs _]. rewrite Hs. f_equal. symmetry.
    apply (ifdLoop_make_none _ _ _ _ _ _ _ _ _ _ _ H).
    intros j Hj. apply Hlast. lia.
  - apply (IH _ _ _ _ _ _ H); [lia|assumption|].
    intros j Hj. apply Hlast. lia.
Qed.

Lemma ifdLoop_model_last (n : nat) (view : DataView) (ds ts : Z) (le : bool) :
  forall i mk md i' mk' md',
    ifdLoop n view ds ts le i mk md = Ok (i', mk', md') ->
    forall k, i <= k < i + Z.of_nat n ->
      entryTag view ds le k = Ok tagModel ->
      (forall j, k < j < i + Z.of_nat n -> entryTag view ds le j <> Ok tagModel) ->
      getStringFromEntry view (entryOffsetOf ds k) ts le = Ok md'.
Proof.
  induction n as [|n IH]; intros i mk md i' mk' md' H k Hk Hkt Hlast; [lia|].
  apply ifdLoop_S in H.
  destruct H as (tag & mk1 & md1 & Ht & _ & Hmd & _ & _ & H).
  destruct (Z.eq_dec k i) as [->|Hne].
  - rewrite Hkt in Ht. apply Ok_inj in Ht. subst tag.
    destruct (Hmd eq_refl) as [Hs _]. rewrite Hs. f_equal. symmetry.
    apply (ifdLoop_model_none _ _ _ _ _ _ _ _ _ _ _ H).
    intros j Hj. apply Hlast. lia.
  - apply (IH _ _ _ _ _ _ H); [lia|assumption|].
    intros j Hj. apply Hlast. lia.
Qed.

(** Where the strings on exit come from: each is the initial one, or was
    decoded from an entry carrying its tag. *)
Lemma ifdLoop_make_source (n : nat) (view : DataView) (ds ts : Z) (le : bool) :
  forall i mk md i' mk' md',
    ifdLoop n view ds ts le i mk md = Ok (i', mk', md') ->
    mk' = mk
    \/ exists k, i <= k < i + Z.of_nat n
                 /\ entryTag view ds le k = Ok tagMake
                 /\ getStringFromEntry view (entryOffsetOf ds k) ts le = Ok mk'.
Proof.
  induction n as [|n IH]; intros i mk md i' mk' md' H.
  - simpl in H. injection H as _ <- _. now left.
  - apply ifdLoop_S in H.
    destruct H as (tag & mk1 & md1 & Ht & Hmk & _ & Hkeep & _ & H).
    destruct (IH _ _ _ _ _ _ H) as [->|(k & Hk & Hkt & Hs)].
    + destruct (Z.eq_dec tag tagMake) as [->|Hne].
      * right. exists i. destruct (Hmk eq_refl) as [Hs _].
        split; [lia|]. split; assumption.
      * left. now apply Hkeep.
    + right. exists k. split; [lia|]. split; assumption.
Qed.

Lemma ifdLoop_model_source (n : nat) (view : DataView) (ds ts : Z) (le : bool) :
  forall i mk md i' mk' md',
    ifdLoop n view ds ts le i mk md = Ok (i', mk', md') ->
    md' = md
    \/ exists k, i <= k < i + Z.of_nat n
                 /\ entryTag view ds le k = Ok tagModel
                 /\ getStringFromEntry view (entryOffsetOf ds k) ts le = Ok md'.
Proof.
  induction n as [|n IH]; intros i mk md i' mk' md' H.
  - simpl in H. injection H as _ _ <-. now left.
  - apply ifdLoop_S in H.
    destruct H as (tag & mk1 & md1 & Ht & _ & Hmd & _ & Hkeep & H).
    destruct (IH _ _ _ _ _ _ H) as [->|(k & Hk & Hkt & Hs)].
    + destruct (Z.eq_dec tag tagModel) as [->|Hne].
      * right. exists i. destruct (Hmd eq_refl) as [Hs _].
        split; [lia|]. split; assumption.
      * left. now apply Hkeep.
    + right. exists k. split; [lia|]. split; assumption.
Qed.

(** ** Decoding an ASCII value *)

Lemma string_app_nil_r (s : string) : (s ++ "")%string = s.
Proof. induction s as [|c s IH]; simpl; [reflexivity|now rewrite IH]. Qed.

Lemma string_app_assoc (a b c : string) :
  ((a ++ b) ++ c)%string = (a ++ (b ++ c))%string.
Proof. induction a as [|x a IH]; simpl; [reflexivity|now rewrite IH]. Qed.

Lemma fromCharCode_byte (b : byte) :
  fromCharCode (byteValue b) = String (ascii_of_byte b) EmptyString.
Proof.
  unfold fromCharCode, byteValue.
  now rewrite N2Z.id, ascii_of_byte_via_N.
Qed.

Lemma skipn_nth_error {A : Type} (l : list A) (n : nat) (a : A) :
  nth_error l n = Some a -> skipn n l = a :: skipn (S n) l.
Proof.
  revert l. induction n as [|n IH]; intros [|x l] H; simpl in H;
    try discriminate.
  - now injection H as ->.
  - simpl. now apply IH.
Qed.

(** An in-bounds read, as a fact about the list. *)
Lemma getUint8_nth (view : DataView) (o : Z) :
  0 <= o < byteLength view ->
  exists b, nth_error view (Z.to_nat o) = Some b
            /\ getUint8 view o = Ok (byteValue b).
Proof.
  intros H. unfold getUint8.
  replace (0 <=? o) with true by (symmetry; apply Z.leb_le; lia).
  replace (o <? byteLength view) with true by (symmetry; apply Z.ltb_lt; lia).
  simpl. destruct (nth_error view (Z.to_nat o)) as [b|] eqn:E; [eauto|].
  apply nth_error_None in E. unfold byteLength in H. lia.
Qed.

(** The copy loop never raises, and computes the specified string. *)
Lemma readChars_spec (n : nat) (view : DataView) (offset : Z) :
  forall i str,
    0 <= offset + i ->
    readChars n view offset i str =
    Ok (str ++ stringOfBytes
                 (takeUntilNul
                    (firstn n (skipn (Z.to_nat (offset + i)) view))))%string.
Proof.
  induction n as [|n IH]; intros i str Hi.
  - simpl. now rewrite string_app_nil_r.
  - cbn [readChars]. destruct (offset + i >=? byteLength view) eqn:E.
    + rewrite skipn_all2; [simpl; now rewrite string_app_nil_r|].
      apply Z.geb_le in E. unfold byteLength in E. lia.
    + assert (Hin : 0 <= offset + i < byteLength view).
      { split; [exact Hi|]. destruct (Z.geb_spec (offset + i) (byteLength view));
          [discriminate|lia]. }
      destruct (getUint8_nth view _ Hin) as (b & Hb & Hr).
      rewrite Hr. cbn [bind]. rewrite (skipn_nth_error _ _ _ Hb).
      cbn [firstn takeUntilNul].
      destruct (byteValue b =? 0); [simpl; now rewrite string_app_nil_r|].
      rewrite IH by lia. rewrite fromCharCode_byte, string_app_assoc.
      cbn [stringOfBytes]. simpl append.
      replace (Z.to_nat (offset + (i + 1))) with (S (Z.to_nat (offset + i)))
        by lia.
      reflexivity.
Qed.

Lemma getStringFromEntry_ascii (view : DataView) (eo ts : Z) (le : bool)
  (count vo : Z) :
  0 <= ts ->
  getUint16 view (eo + 2) le = Ok 2 ->
  getUint32 view (eo + 4) le = Ok count ->
  getUint32 view (eo + 8) le = Ok vo ->
  getStringFromEntry view eo ts le =
  Ok (spec_decodeString view
        (if count <=? 4 then eo + 8 else ts + vo) count).
Proof.
  intros Hts Ht Hc Hv. unfold getStringFromEntry.
  rewrite Ht. cbn [bind]. rewrite Hc. cbn [bind]. cbn [Z.eqb Pos.eqb negb].
  rewrite Hv. cbn [bind]. cbv zeta.
  apply getUint32_Ok in Hv. 
  assert (Ho : 0 <= (if count <=? 4 then eo + 8 else ts + vo) + 0)
    by (destruct (count <=? 4); lia).
  rewrite readChars_spec by exact Ho. unfold spec_decodeString.
  rewrite Z.add_0_r. reflexivity.
Qed.

(** An entry whose type is not ASCII decodes to the empty string. *)
Lemma getStringFromEntry_other (view : DataView) (eo ts : Z) (le : bool)
  (type count : Z) :
  getUint16 view (eo + 2) le = Ok type ->
  getUint32 view (eo + 4) le = Ok count ->
  type <> 2 ->
  getStringFromEntry view eo ts le = Ok "".
Proof.
  intros Ht Hc Hne. unfold getStringFromEntry.
  rewrite Ht. cbn [bind]. rewrite Hc. cbn [bind].
  apply Z.eqb_neq in Hne. now rewrite Hne.
Qed.

(** A non-empty decoded string comes from an entry of type ASCII. *)
Lemma getStringFromEntry_nonempty (view : DataView) (eo ts : Z) (le : bool)
  (s : string) :
  getStringFromEntry view eo ts le = Ok s -> s <> "" ->
  getUint16 view (eo + 2) le = Ok 2.
Proof.
  unfold getStringFromEntry. intros H Hs. peel H. peel H.
  destruct (v =? 2) eqn:E.
  - apply Z.eqb_eq in E. now subst v.
  - simpl in H. apply Ok_inj in H. congruence.
Qed.

(** ** The marker scanner *)

Lemma markerStep_otherApp1 (view : DataView) (offset len : Z) :
  otherApp1At view offset len ->
  markerStep view offset = Ok (Continue (offset + (2 + len))).
Proof.
  intros [(H0 & H1 & H2) (sig & Hs & Hne)]. unfold markerStep.
  rewrite H0. cbn [bind]. rewrite H1. cbn [bind]. rewrite H2. cbn [bind].
  rewrite Hs. cbn [bind]. apply Z.eqb_neq in Hne. unfold exifSig in Hne.
  now rewrite Hne.
Qed.

Lemma markerStep_plain (view : DataView) (offset len : Z) :
  plainSegmentAt view offset len ->
  markerStep view offset = Ok (Continue (offset + (2 + len))).
Proof.
  intros (marker & (H0 & H1 & H2) & Hn1 & Hn2). unfold markerStep.
  rewrite H0. cbn [bind]. rewrite H1. cbn [bind].
  apply Z.eqb_neq in Hn1, Hn2. rewrite Hn1, Hn2, H2. reflexivity.
Qed.

Lemma markerStep_exif (view : DataView) (offset : Z) :
  exifApp1At view offset ->
  markerStep view offset = Ok (Resolve (parseExifChunk view (offset + 10))).
Proof.
  intros (len & (H0 & H1 & H2) & Hs). unfold markerStep.
  rewrite H0. cbn [bind]. rewrite H1. cbn [bind]. rewrite H2. cbn [bind].
  rewrite Hs. reflexivity.
Qed.

(** What an iteration that goes on has seen. *)
Lemma markerStep_Continue (view : DataView) (offset offset' : Z) :
  markerStep view offset = Ok (Continue offset') ->
  exists len, offset' = offset + (2 + len)
              /\ (plainSegmentAt view offset len \/ otherApp1At view offset len).
Proof.
  unfold markerStep. intros H. peel H.
  destruct (v =? 255) eqn:Eb; simpl in H; [|discriminate].
  apply Z.eqb_eq in Eb. subst v. peel H.
  destruct (v =? 225) eqn:E1.
  - apply Z.eqb_eq in E1. subst v. peel H. peel H.
    destruct (v0 =? 1165519206) eqn:Es; [discriminate|].
    apply Ok_inj in H. injection H as <-. exists v. split; [reflexivity|].
    right. split; [repeat split; assumption|].
    exists v0. split; [assumption|]. now apply Z.eqb_neq in Es.
  - destruct (v =? 218) eqn:E2; [discriminate|]. peel H.
    apply Ok_inj in H. injection H as <-. exists v0. split; [reflexivity|].
    left. exists v. apply Z.eqb_neq in E1, E2.
    split; [repeat split; assumption|]. split; assumption.
Qed.

Lemma markerStep_Resolve (view : DataView) (offset : Z) (r : option string) :
  markerStep view offset = Ok (Resolve r) ->
  exifApp1At view offset /\ r = parseExifChunk view (offset + 10).
Proof.
  unfold markerStep. intros H. peel H.
  destruct (v =? 255) eqn:Eb; simpl in H; [|discriminate].
  apply Z.eqb_eq in Eb. subst v. peel H.
  destruct (v =? 225) eqn:E1.
  - apply Z.eqb_eq in E1. subst v. peel H. peel H.
    destruct (v0 =? 1165519206) eqn:Es; [|discriminate].
    apply Z.eqb_eq in Es. subst v0.
    apply Ok_inj in H. injection H as <-. split; [|reflexivity].
    exists v. split; [repeat split; assumption|assumption].
  - destruct (v =? 218); [discriminate|]. peel H. discriminate.
Qed.

(** The offset grows by at least 2 in an iteration that goes on. *)
Lemma markerStep_grows (view : DataView) (offset offset' : Z) :
  markerStep view offset = Ok (Continue offset') -> offset + 2 <= offset'.
Proof.
  intros H. apply markerStep_Continue in H.
  destruct H as (len & -> & [(m & (_ & _ & Hl) & _)|[(_ & _ & Hl) _]]);
    apply getUint16_Ok in Hl; lia.
Qed.

(** Enough iterations: half the bytes left, rounded up. *)
Lemma markerLoop_enough (fuel : nat) (view : DataView) :
  forall offset,
    byteLength view - offset <= 2 * Z.of_nat fuel ->
    exists r, markerLoop fuel view offset = Some r.
Proof.
  induction fuel as [|fuel IH]; intros offset Hf;
    cbn [markerLoop]; destruct (offset <? byteLength view) eqn:E; eauto.
  - apply Z.ltb_lt in E. lia.
  - destruct (markerStep view offset) as [[o'| |r]|] eqn:Es; eauto.
    apply IH. apply markerStep_grows in Es. lia.
Qed.

(** More iterations allowed do not change a result. *)
Lemma markerLoop_more (fuel : nat) (view : DataView) :
  forall offset r fuel',
    markerLoop fuel view offset = Some r -> (fuel <= fuel')%nat ->
    markerLoop fuel' view offset = Some r.
Proof.
  induction fuel as [|fuel IH]; intros offset r fuel' H Hle.
  - cbn [markerLoop] in H. destruct fuel'; cbn [markerLoop];
      destruct (offset <? byteLength view); congruence.
  - destruct fuel' as [|fuel']; [lia|]. cbn [markerLoop] in *.
    destruct (offset <? byteLength view); [|exact H].
    destruct (markerStep view offset) as [[o'| |r']|]; try exact H.
    apply IH; [exact H|lia].
Qed.

(** Stepping over segments does not change the outcome of the scan. *)
Lemma markerLoop_skips (view : DataView) (a b : Z) :
  skips view a b ->
  forall fuel r, markerLoop fuel view b = Some r ->
                 exists fuel', markerLoop fuel' view a = Some r.
Proof.
  induction 1 as [a|a len b Hseg Hsk IH]; intros fuel r Hr; [eauto|].
  destruct (IH _ _ Hr) as (fuel' & Hf). exists (S fuel').
  assert (Hstep : markerStep view a = Ok (Continue (a + (2 + len))))
    by (destruct Hseg; [now apply markerStep_plain
                       |now apply markerStep_otherApp1]).
  assert (Hin : (a <? byteLength view) = true).
  { apply Z.ltb_lt.
    assert (H0 : getUint8 view a = Ok 0xFF)
      by (destruct Hseg as [(m & (H0 & _) & _)|[(H0 & _) _]]; exact H0).
    apply getUint8_Ok in H0. lia. }
  cbn [markerLoop]. now rewrite Hin, Hstep.
Qed.

(** The [try] block of [onload] always ends, whatever the bound. *)
Lemma onload_body_total (view : DataView) :
  exists out, forall fuel, (List.length view <= fuel)%nat ->
                           onload_body fuel view = Some out.
Proof.
  unfold onload_body. destruct (getUint16 view 0 false) as [soi|]; [|eauto].
  destruct (negb (soi =? 65496)); [eauto|].
  destruct (markerLoop_enough (List.length view) view 2) as (r & Hr).
  { unfold byteLength. lia. }
  exists r. intros fuel Hf. now apply (markerLoop_more _ _ _ _ _ Hr).
Qed.

(** The outcome of the scan is the outcome of the iteration at which a run
    of stepped-over segments ends. *)
Lemma onload_at (view : DataView) (offset : Z) (r : exn (option string)) :
  getUint16 view 0 false = Ok 0xFFD8 ->
  skips view 2 offset ->
  markerLoop 1 view offset = Some r ->
  onload view = catch r.
Proof.
  intros Hsoi Hsk Hat.
  destruct (markerLoop_skips _ _ _ Hsk _ _ Hat) as (fuel & Hf).
  destruct (markerLoop_enough (List.length view) view 2) as (r' & Hr).
  { unfold byteLength. lia. }
  pose proof (markerLoop_more _ _ _ _ (Nat.max fuel (List.length view)) Hf
                (Nat.le_max_l _ _)) as H1.
  pose proof (markerLoop_more _ _ _ _ (Nat.max fuel (List.length view)) Hr
                (Nat.le_max_r _ _)) as H2.
  rewrite H1 in H2. injection H2 as <-.
  unfold onload, onload_body. rewrite Hsoi. cbn [Z.eqb Pos.eqb negb].
  now rewrite Hr.
Qed.

(** Reaching an Exif APP1 segment hands its TIFF structure, ten bytes
    further, to the directory reader. *)
Lemma onload_handoff (view : DataView) (offset : Z) :
  getUint16 view 0 false = Ok 0xFFD8 ->
  skips view 2 offset ->
  exifApp1At view offset ->
  onload view = parseExifChunk view (offset + 10).
Proof.
  intros Hsoi Hsk Hex.
  apply (onload_at view offset (Ok (parseExifChunk view (offset + 10))));
    try assumption.
  cbn [markerLoop]. rewrite (markerStep_exif _ _ Hex).
  destruct Hex as (len & (H0 & _) & _). apply getUint8_Ok in H0.
  replace (offset <? byteLength view) with true
    by (symmetry; apply Z.ltb_lt; lia).
  reflexivity.
Qed.

(** A present result was produced at an Exif APP1 segment reached over
    well-formed segments. *)
Lemma markerLoop_Some (fuel : nat) (view : DataView) :
  forall offset s,
    markerLoop fuel view offset = Some (Ok (Some s)) ->
    exists b, skips view offset b /\ exifApp1At view b
              /\ parseExifChunk view (b + 10) = Some s.
Proof.
  induction fuel as [|fuel IH]; intros offset s H; cbn [markerLoop] in H;
    destruct (offset <? byteLength view); try discriminate.
  destruct (markerStep view offset) as [[o'| |r]|] eqn:Es; try discriminate.
  - destruct (IH _ _ H) as (b & Hsk & Hex & Hp).
    apply markerStep_Continue in Es. destruct Es as (len & -> & Hseg).
    exists b. split; [|split; assumption].
    now apply (skips_next view offset len b).
  - apply markerStep_Resolve in Es. destruct Es as [Hex ->].
    injection H as H. exists offset. split; [constructor|]. split; assumption.
Qed.

Lemma onload_Some (view : DataView) (s : string) :
  onload view = Some s ->
  getUint16 view 0 false = Ok 0xFFD8
  /\ exists b, skips view 2 b /\ exifApp1At view b
               /\ parseExifChunk view (b + 10) = Some s.
Proof.
  unfold onload, onload_body. intros H.
  destruct (getUint16 view 0 false) as [soi|]; [|discriminate].
  destruct (soi =? 65496) eqn:E; [|discriminate].
  apply Z.eqb_eq in E. subst soi. split; [reflexivity|].
  cbn [negb] in H.
  destruct (markerLoop (List.length view) view 2) as [[[s'|]|]|] eqn:El;
    try discriminate.
  simpl in H. injection H as ->. exact (markerLoop_Some _ _ _ _ El).
Qed.

(** * The claims *)

(** ** Byte order *)

(** Claim C1, as stated, fails: with a byte-order mark of 0x0000 (neither
    II nor MM) in front of an otherwise big-endian TIFF structure, the
    directory reader goes on and returns a device string. *)
Lemma unknown_byte_order_is_parsed :
  ~ (forall (view : DataView) (tiffStart byteOrder : Z),
        getUint16 view tiffStart false = Ok byteOrder ->
        byteOrder <> 0x4949 -> byteOrder <> 0x4D4D ->
        parseExifChunk view tiffStart = None).
Proof.
  intros H.
  assert (H0 : getUint16 jpegNoOrder 12 false = Ok 0) by reflexivity.
  specialize (H jpegNoOrder 12 0 H0).
  assert (H1 : parseExifChunk jpegNoOrder 12 = Some "Apple iPhone 14 Pro")
    by (vm_compute; reflexivity).
  rewrite H1 in H. discriminate H; lia.
Qed.

(** Claim C1, amended: the byte-order mark 0x4949 selects little-endian and
    every other value, 0x4D4D or not, selects big-endian; in both cases the
    reader goes on to the TIFF header and the directory with that order. *)
Theorem byte_order_selects_endianness (view : DataView)
  (tiffStart byteOrder : Z) :
  getUint16 view tiffStart false = Ok byteOrder ->
  (byteOrder = 0x4949 ->
   parseExifChunk view tiffStart = catch (readDirectory view tiffStart true))
  /\ (byteOrder <> 0x4949 ->
      parseExifChunk view tiffStart
      = catch (readDirectory view tiffStart false)).
Proof.
  intros H. unfold parseExifChunk, parseExifChunk_body. rewrite H.
  cbn [bind]. cbv zeta. split; intros Hb.
  - now subst byteOrder.
  - apply Z.eqb_neq in Hb. now rewrite Hb.
Qed.

Lemma byte_order_selects_endianness_witness :
  parseExifChunk jpegNoOrder 12 = catch (readDirectory jpegNoOrder 12 false)
  /\ parseExifChunk jpegNoOrder 12 = Some "Apple iPhone 14 Pro".
Proof.
  split.
  - apply (byte_order_selects_endianness jpegNoOrder 12 0); [reflexivity|lia].
  - vm_compute. reflexivity.
Defined.

(** ** Repeated tags *)

(** Claim C2, as stated, fails: of two entries tagged Make, decoding to
    "First" and "Second", the result carries the second. *)
Lemma first_occurrence_does_not_win :
  onload jpegTwoMakes = Some "Second"
  /\ ~ (forall (view : DataView) (dirStart tiffStart : Z) (le : bool)
          (entries i : Z) (make model : string),
          ifdLoop (Z.to_nat entries) view dirStart tiffStart le 0 "" ""
          = Ok (i, make, model) ->
          forall k, 0 <= k < entries ->
            entryTag view dirStart le k = Ok tagMake ->
            (forall j, 0 <= j < k -> entryTag view dirStart le j <> Ok tagMake) ->
            getStringFromEntry view (entryOffsetOf dirStart k) tiffStart le
            = Ok make).
Proof.
  split; [vm_compute; reflexivity|]. intros H.
  assert (H0 : ifdLoop (Z.to_nat 2) jpegTwoMakes 20 12 false 0 "" ""
               = Ok (2, "Second", "")) by (vm_compute; reflexivity).
  specialize (H jpegTwoMakes 20 12 false 2 2 "Second" "" H0 0).
  assert (H1 : getStringFromEntry jpegTwoMakes (entryOffsetOf 20 0) 12 false
               = Ok "First") by (vm_compute; reflexivity).
  rewrite H1 in H. discriminate H; try lia; reflexivity.
Qed.

(** Claim C2, amended: when a tag is repeated the last occurrence wins.  On
    leaving the loop, Make is the string decoded from the last entry tagged
    0x010F and Model the one decoded from the last entry tagged 0x0110. *)
Theorem last_occurrence_wins (view : DataView) (dirStart tiffStart : Z)
  (le : bool) (entries i : Z) (make model : string) :
  ifdLoop (Z.to_nat entries) view dirStart tiffStart le 0 "" ""
  = Ok (i, make, model) ->
  (forall k, 0 <= k < entries ->
     entryTag view dirStart le k = Ok tagMake ->
     (forall j, k < j < entries -> entryTag view dirStart le j <> Ok tagMake) ->
     getStringFromEntry view (entryOffsetOf dirStart k) tiffStart le = Ok make)
  /\ (forall k, 0 <= k < entries ->
        entryTag view dirStart le k = Ok tagModel ->
        (forall j, k < j < entries ->
                   entryTag view dirStart le j <> Ok tagModel) ->
        getStringFromEntry view (entryOffsetOf dirStart k) tiffStart le
        = Ok model).
Proof.
  intros H. split; intros k Hk Ht Hlast.
  - apply (ifdLoop_make_last _ _ _ _ _ _ _ _ _ _ _ H k); [lia|exact Ht|].
    intros j Hj. apply Hlast. lia.
  - apply (ifdLoop_model_last _ _ _ _ _ _ _ _ _ _ _ H k); [lia|exact Ht|].
    intros j Hj. apply Hlast. lia.
Qed.

Lemma last_occurrence_wins_witness :
  getStringFromEntry jpegTwoMakes (entryOffsetOf 20 1) 12 false = Ok "Second".
Proof.
  assert (H0 : ifdLoop (Z.to_nat 2) jpegTwoMakes 20 12 false 0 "" ""
               = Ok (2, "Second", "")) by (vm_compute; reflexivity).
  destruct (last_occurrence_wins jpegTwoMakes 20 12 false 2 2 "Second" "" H0)
    as [Hmake _].
  apply (Hmake 1); [lia|vm_compute; reflexivity|intros j Hj; lia].
Defined.

(** ** Composition of the result *)



(** Claim C10: when one of the two decoded strings is non-empty and both
    trim to the empty string, the directory reader returns the empty string
    as a present result, not "not found". *)
Theorem blank_strings_give_empty_result (view : DataView) (tiffStart : Z)
  (make model : string) :
  rawStrings view tiffStart make model ->
  make <> "" \/ model <> "" ->
  trim make = "" -> trim model = "" ->
  parseExifChunk view tiffStart = Some "".
Proof.
  intros Hraw Hne Hmk Hmd.
  rewrite (parseExifChunk_raw _ _ _ _ Hraw), (composeDevice_cases _ _ Hne).
  now rewrite Hmk, Hmd.
Qed.

Lemma blank_strings_give_empty_result_witness :
  parseExifChunk (jpegMakeModel "      " "") 12 = Some ""
  /\ onload (jpegMakeModel "      " "") = Some "".
Proof.
  split.
  - apply (blank_strings_give_empty_result _ _ "      " "").
    + exists 0x4D4D, 8, 2, 2. cbv zeta.
      repeat (split; [first [lia | vm_compute; reflexivity]|]).
      vm_compute. reflexivity.
    + left. discriminate.
    + reflexivity.
    + reflexivity.
  - vm_compute. reflexivity.
Defined.

(** ** The TIFF header *)

(** Claim C7: once the byte order is selected, the directory reader returns
    "not found" unless the 16-bit value after the byte-order mark is 0x002A
    and the 32-bit offset of the first directory is at least 8. *)
Theorem header_magic_and_offset_checked (view : DataView)
  (tiffStart byteOrder : Z) :
  getUint16 view tiffStart false = Ok byteOrder ->
  (getUint16 view (tiffStart + 2) (byteOrder =? 0x4949) <> Ok 0x002A ->
   parseExifChunk view tiffStart = None)
  /\ (forall firstIFDOffset,
         getUint32 view (tiffStart + 4) (byteOrder =? 0x4949)
         = Ok firstIFDOffset ->
         firstIFDOffset < 8 ->
         parseExifChunk view tiffStart = None).
Proof.
  intros Hbo.
  assert (Hsome : forall s, parseExifChunk view tiffStart = Some s ->
            getUint16 view (tiffStart + 2) (byteOrder =? 0x4949) = Ok 0x002A
            /\ exists ifd, getUint32 view (tiffStart + 4) (byteOrder =? 0x4949)
                           = Ok ifd /\ 8 <= ifd).
  { intros s Hs. apply parseExifChunk_Some in Hs.
    destruct Hs as (mk & md & (bo & ifd & n & i & H0 & H1 & H2 & H3 & _) & _).
    rewrite Hbo in H0. apply Ok_inj in H0. subst bo. eauto. }
  split.
  - intros Hm. destruct (parseExifChunk view tiffStart) as [s|] eqn:E;
      [|reflexivity].
    destruct (Hsome s eq_refl) as [H _]. contradiction.
  - intros ifd Hi Hlt. destruct (parseExifChunk view tiffStart) as [s|] eqn:E;
      [|reflexivity].
    destruct (Hsome s eq_refl) as [_ (ifd' & H & Hge)].
    rewrite Hi in H. apply Ok_inj in H. lia.
Qed.

Lemma header_magic_and_offset_checked_witness :
  parseExifChunk tiffBadMagic 0 = None.
Proof.
  destruct (header_magic_and_offset_checked tiffBadMagic 0 0x4D4D eq_refl)
    as [H _].
  apply H. vm_compute. discriminate.
Defined.

(** ** String values *)

(** Claim C5: for an entry of type ASCII, the bytes are taken from the
    value field of the entry itself (entry offset + 8) when the count is at
    most 4 and from [tiffStart] + value-or-offset when it is 5 or more; the
    copy stops at the first NUL, at the end of the buffer or after count
    bytes, and no read raises: no byte beyond the buffer is read. *)
Theorem ascii_value_decoding (view : DataView) (entryOffset tiffStart : Z)
  (le : bool) (count valueOrOffset : Z) :
  0 <= tiffStart ->
  getUint16 view (entryOffset + 2) le = Ok 2 ->
  getUint32 view (entryOffset + 4) le = Ok count ->
  getUint32 view (entryOffset + 8) le = Ok valueOrOffset ->
  (count <= 4 ->
   getStringFromEntry view entryOffset tiffStart le
   = Ok (spec_decodeString view (entryOffset + 8) count))
  /\ (5 <= count ->
      getStringFromEntry view entryOffset tiffStart le
      = Ok (spec_decodeString view (tiffStart + valueOrOffset) count)).
Proof.
  intros Hts Ht Hc Hv.
  rewrite (getStringFromEntry_ascii _ _ _ _ _ _ Hts Ht Hc Hv).
  split; intros Hcount.
  - replace (count <=? 4) with true by (symmetry; apply Z.leb_le; lia).
    reflexivity.
  - replace (count <=? 4) with false by (symmetry; apply Z.leb_gt; lia).
    reflexivity.
Qed.

Lemma ascii_value_decoding_witness :
  getStringFromEntry jpegInlineAndLong 22 12 false = Ok "Nikon"
  /\ getStringFromEntry jpegInlineAndLong 34 12 false = Ok "D5".
Proof.
  split.
  - destruct (ascii_value_decoding jpegInlineAndLong 22 12 false 200 38)
      as [_ H]; [lia|reflexivity|reflexivity|reflexivity|].
    rewrite H by lia. vm_compute. reflexivity.
  - destruct (ascii_value_decoding jpegInlineAndLong 34 12 false 3 0x44350000)
      as [H _]; [lia|reflexivity|reflexivity|reflexivity|].
    rewrite H by lia. vm_compute. reflexivity.
Defined.

(** Claim C6: an entry tagged Make or Model whose type is not 2 is not
    decoded.  [getStringFromEntry] returns the empty string for it whatever
    its count and value field hold, so the loop leaves the variable of that
    tag empty; and a non-empty Make or Model on leaving the loop was decoded
    from an entry of that tag whose type is 2. *)
Theorem non_ascii_entry_gives_no_string :
  (forall (view : DataView) (entryOffset tiffStart : Z) (le : bool)
          (type count : Z),
      getUint16 view (entryOffset + 2) le = Ok type ->
      getUint32 view (entryOffset + 4) le = Ok count ->
      type <> 2 ->
      getStringFromEntry view entryOffset tiffStart le = Ok "")
  /\ (forall (view : DataView) (dirStart tiffStart : Z) (le : bool)
             (entries i : Z) (make model : string),
         ifdLoop (Z.to_nat entries) view dirStart tiffStart le 0 "" ""
         = Ok (i, make, model) ->
         (make <> "" ->
          exists k, 0 <= k < entries
            /\ entryTag view dirStart le k = Ok tagMake
            /\ getUint16 view (entryOffsetOf dirStart k + 2) le = Ok 2
            /\ getStringFromEntry view (entryOffsetOf dirStart k) tiffStart le
               = Ok make)
         /\ (model <> "" ->
             exists k, 0 <= k < entries
               /\ entryTag view dirStart le k = Ok tagModel
               /\ getUint16 view (entryOffsetOf dirStart k + 2) le = Ok 2
               /\ getStringFromEntry view (entryOffsetOf dirStart k)
                    tiffStart le = Ok model)).
Proof.
  split; [exact getStringFromEntry_other|].
  intros view ds ts le entries i make model H. split; intros Hne.
  - destruct (ifdLoop_make_source _ _ _ _ _ _ _ _ _ _ _ H)
      as [->|(k & Hk & Ht & Hs)]; [congruence|].
    exists k. split; [lia|]. split; [exact Ht|].
    split; [exact (getStringFromEntry_nonempty _ _ _ _ _ Hs Hne)|exact Hs].
  - destruct (ifdLoop_model_source _ _ _ _ _ _ _ _ _ _ _ H)
      as [->|(k & Hk & Ht & Hs)]; [congruence|].
    exists k. split; [lia|]. split; [exact Ht|].
    split; [exact (getStringFromEntry_nonempty _ _ _ _ _ Hs Hne)|exact Hs].
Qed.

Lemma non_ascii_entry_gives_no_string_witness :
  getStringFromEntry jpegShortMake 22 12 false = Ok ""
  /\ onload jpegShortMake = Some "EOS R5".
Proof.
  split.
  - destruct non_ascii_entry_gives_no_string as [H _].
    apply (H jpegShortMake 22 12 false 3 6); [reflexivity|reflexivity|lia].
  - vm_compute. reflexivity.
Defined.

(** ** Marker segments *)

Lemma skips_trans (view : DataView) (a b c : Z) :
  skips view a b -> skips view b c -> skips view a c.
Proof.
  induction 1 as [a|a len b Hseg Hsk IH]; intros Hbc; [exact Hbc|].
  apply (skips_next view a len c Hseg). now apply IH.
Qed.

(** Claim C8: in a buffer that starts with SOI, an APP1 segment without the
    Exif signature is stepped over by adding 2 + its length to the offset,
    and when the scan then reaches an APP1 segment with the signature, the
    directory reader is given that segment's offset + 10. *)
Theorem non_exif_app1_is_skipped (view : DataView) (first len exif : Z) :
  getUint16 view 0 false = Ok 0xFFD8 ->
  skips view 2 first ->
  otherApp1At view first len ->
  skips view (first + (2 + len)) exif ->
  exifApp1At view exif ->
  markerStep view first = Ok (Continue (first + (2 + len)))
  /\ onload view = parseExifChunk view (exif + 10).
Proof.
  intros Hsoi Hsk1 Hother Hsk2 Hex. split.
  - now apply markerStep_otherApp1.
  - apply onload_handoff; [exact Hsoi| |exact Hex].
    apply (skips_trans _ _ _ _ Hsk1).
    apply (skips_next view first len exif); [now right|exact Hsk2].
Qed.

Lemma non_exif_app1_is_skipped_witness :
  markerStep jpegXmpFirst 2 = Ok (Continue 34)
  /\ onload jpegXmpFirst = parseExifChunk jpegXmpFirst 44.
Proof.
  apply (non_exif_app1_is_skipped jpegXmpFirst 2 30 34).
  - reflexivity.
  - constructor.
  - split; [repeat split; reflexivity|].
    exists 1752462448. split; [reflexivity|]. unfold exifSig. lia.
  - constructor.
  - exists 66. split; [repeat split; reflexivity|reflexivity].
Defined.

(** ** Termination *)

(** Claim C9: the parse terminates on every buffer.  An iteration of the
    marker loop that goes on adds at least 2 to the offset; the [try] block
    of [onload] therefore ends within [length view] iterations, with the
    same outcome under any larger bound; and the loop over the directory
    leaves with [i] equal to the entry count read from the buffer. *)
Theorem parse_terminates :
  (forall (view : DataView) (offset offset' : Z),
      markerStep view offset = Ok (Continue offset') -> offset + 2 <= offset')
  /\ (forall view : DataView,
         exists out, forall fuel, (List.length view <= fuel)%nat ->
                                  onload_body fuel view = Some out)
  /\ (forall (view : DataView) (dirStart tiffStart : Z) (le : bool)
             (entries i : Z) (make model : string),
         getUint16 view dirStart le = Ok entries ->
         ifdLoop (Z.to_nat entries) view dirStart tiffStart le 0 "" ""
         = Ok (i, make, model) ->
         i = entries).
Proof.
  split; [exact markerStep_grows|]. split; [exact onload_body_total|].
  intros view ds ts le entries i make model He H.
  apply ifdLoop_final_i in H. apply getUint16_Ok in He. lia.
Qed.

Lemma parse_terminates_witness :
  2 + 2 <= 34
  /\ (forall i make model,
         ifdLoop (Z.to_nat 2) jpegTwoMakes 20 12 false 0 "" ""
         = Ok (i, make, model) -> i = 2).
Proof.
  destruct parse_terminates as (Hgrow & _ & Hcount). split.
  - apply (Hgrow jpegXmpFirst 2 34). reflexivity.
  - intros i make model H.
    apply (Hcount jpegTwoMakes 20 12 false 2 i make model); [reflexivity|].
    exact H.
Defined.

(** ** Faults *)

Lemma markerLoop_one (view : DataView) (offset : Z) :
  offset < byteLength view ->
  markerLoop 1 view offset =
  match markerStep view offset with
  | Throw => Some Throw
  | Ok Break => Some (Ok None)
  | Ok (Resolve result) => Some (Ok result)
  | Ok (Continue offset') =>
      if offset' <? byteLength view then None else Some (Ok None)
  end.
Proof.
  intros H. cbn [markerLoop].
  replace (offset <? byteLength view) with true
    by (symmetry; apply Z.ltb_lt; lia).
  reflexivity.
Qed.




(** ** The two examples of the specification, from file to result *)

Example canon_file :
  getExifDeviceData (mkFile "image/jpeg" (jpegMakeModel "Canon" "Canon EOS R5"))
  = Some "Canon EOS R5".
Proof. vm_compute. reflexivity. Qed.

Example apple_file :
  getExifDeviceData (mkFile "image/jpg" (jpegMakeModel "Apple" "iPhone 14 Pro"))
  = Some "Apple iPhone 14 Pro".
Proof. vm_compute. reflexivity. Qed.

Example png_file :
  getExifDeviceData (mkFile "image/png" (jpegMakeModel "Apple" "iPhone 14 Pro"))
  = None.
Proof. vm_compute. reflexivity. Qed.

(** * Further properties of the parser *)

(** ** Where the scan stops *)

(** A Start-Of-Scan marker ends the scan with "not found", whatever comes
    after it. *)
Theorem sos_stops_scan (view : DataView) (offset : Z) :
  getUint16 view 0 false = Ok 0xFFD8 ->
  skips view 2 offset ->
  getUint8 view offset = Ok 0xFF ->
  getUint8 view (offset + 1) = Ok 0xDA ->
  onload view = None.
Proof.
  intros Hsoi Hsk H0 H1.
  apply (onload_at view offset (Ok None) Hsoi Hsk).
  rewrite markerLoop_one by (apply getUint8_Ok in H0; lia).
  unfold markerStep. rewrite H0. cbn [bind]. rewrite H1. reflexivity.
Qed.

Lemma sos_stops_scan_witness : onload jpegSosFirst = None.
Proof.
  apply (sos_stops_scan jpegSosFirst 2);
    [reflexivity|constructor|reflexivity|reflexivity].
Defined.

(** A segment whose length leads to the end of the buffer or beyond it ends
    the scan with "not found": no read is made there. *)
Theorem segment_past_end_not_found (view : DataView) (offset : Z) :
  getUint16 view 0 false = Ok 0xFFD8 ->
  skips view 2 offset ->
  byteLength view <= offset ->
  onload view = None.
Proof.
  intros Hsoi Hsk Hend.
  apply (onload_at view offset (Ok None) Hsoi Hsk).
  cbn [markerLoop].
  replace (offset <? byteLength view) with false
    by (symmetry; apply Z.ltb_ge; lia).
  reflexivity.
Qed.

Lemma segment_past_end_not_found_witness : onload jpegSegmentPastEnd = None.
Proof.
  apply (segment_past_end_not_found jpegSegmentPastEnd 20).
  - reflexivity.
  - apply (skips_next _ 2 16 20); [|constructor].
    left. exists 0xE0. split; [repeat split; reflexivity|]. split; lia.
  - vm_compute. discriminate.
Defined.

(** ** Directories without a device *)

Lemma ifdLoop_plain (n : nat) (view : DataView) (ds ts : Z) (le : bool) :
  forall i mk md,
    (forall k, i <= k < i + Z.of_nat n ->
       exists tag, entryTag view ds le k = Ok tag
                   /\ tag <> tagMake /\ tag <> tagModel) ->
    ifdLoop n view ds ts le i mk md = Ok (i + Z.of_nat n, mk, md).
Proof.
  induction n as [|n IH]; intros i mk md H.
  - simpl. now rewrite Z.add_0_r.
  - cbn [ifdLoop]. cbv zeta.
    destruct (H i) as (tag & Ht & Hn1 & Hn2); [lia|].
    unfold entryTag, entryOffsetOf in Ht. rewrite Ht. cbn [bind].
    unfold tagMake in Hn1. unfold tagModel in Hn2.
    apply Z.eqb_neq in Hn1, Hn2. rewrite Hn1, Hn2.
    rewrite IH; [do 3 f_equal; lia|].
    intros k Hk. apply H. lia.
Qed.

(** A directory that is read to its end and has no entry tagged Make or
    Model gives "not found". *)
Theorem no_device_tag_not_found (view : DataView)
  (tiffStart byteOrder firstIFDOffset entries : Z) :
  getUint16 view tiffStart false = Ok byteOrder ->
  getUint16 view (tiffStart + 2) (byteOrder =? 0x4949) = Ok 0x002A ->
  getUint32 view (tiffStart + 4) (byteOrder =? 0x4949) = Ok firstIFDOffset ->
  8 <= firstIFDOffset ->
  getUint16 view (tiffStart + firstIFDOffset) (byteOrder =? 0x4949)
  = Ok entries ->
  (forall k, 0 <= k < entries ->
     exists tag,
       entryTag view (tiffStart + firstIFDOffset) (byteOrder =? 0x4949) k
       = Ok tag
       /\ tag <> tagMake /\ tag <> tagModel) ->
  parseExifChunk view tiffStart = None.
Proof.
  intros Hbo Hm Hifd Hge Hn Htags.
  rewrite (parseExifChunk_raw view tiffStart "" ""); [reflexivity|].
  exists byteOrder, firstIFDOffset, entries, (0 + Z.of_nat (Z.to_nat entries)).
  cbv zeta. repeat (split; [assumption|]).
  apply ifdLoop_plain. intros k Hk. apply Htags. lia.
Qed.

Lemma no_device_tag_not_found_witness :
  parseExifChunk jpegNoDeviceTags 12 = None.
Proof.
  apply (no_device_tag_not_found jpegNoDeviceTags 12 0x4D4D 8 2);
    [reflexivity|reflexivity|reflexivity|lia|reflexivity|].
  intros k Hk. assert (Hc : k = 0 \/ k = 1) by lia.
  destruct Hc as [->| ->].
  - exists 0x0112. split; [reflexivity|]. unfold tagMake, tagModel. lia.
  - exists 0x0131. split; [reflexivity|]. unfold tagMake, tagModel. lia.
Defined.

(** When the last entry tagged Make is not of type ASCII, Make is empty on
    leaving the loop, even if an earlier entry tagged Make was decoded. *)
Theorem later_non_ascii_make_clears (view : DataView) (dirStart tiffStart : Z)
  (le : bool) (entries i k type : Z) (make model : string) :
  ifdLoop (Z.to_nat entries) view dirStart tiffStart le 0 "" ""
  = Ok (i, make, model) ->
  0 <= k < entries ->
  entryTag view dirStart le k = Ok tagMake ->
  (forall j, k < j < entries -> entryTag view dirStart le j <> Ok tagMake) ->
  getUint16 view (entryOffsetOf dirStart k + 2) le = Ok type ->
  type <> 2 ->
  make = "".
Proof.
  intros H Hk Ht Hlast Hty Hne.
  assert (Hs : getStringFromEntry view (entryOffsetOf dirStart k) tiffStart le
               = Ok make).
  { apply (ifdLoop_make_last _ _ _ _ _ _ _ _ _ _ _ H k); [lia|exact Ht|].
    intros j Hj. apply Hlast. lia. }
  destruct make as [|c make]; [reflexivity|].
  assert (H2 : getUint16 view (entryOffsetOf dirStart k + 2) le = Ok 2)
    by (apply (getStringFromEntry_nonempty _ _ _ _ _ Hs); discriminate).
  rewrite Hty in H2. apply Ok_inj in H2. contradiction.
Qed.

Lemma later_non_ascii_make_clears_witness :
  getStringFromEntry jpegMakeCleared 22 12 false = Ok "Canon"
  /\ (forall i make model,
         ifdLoop (Z.to_nat 2) jpegMakeCleared 20 12 false 0 "" ""
         = Ok (i, make, model) ->
         make = "")
  /\ onload jpegMakeCleared = None.
Proof.
  split; [vm_compute; reflexivity|]. split; [|vm_compute; reflexivity].
  intros i make model H.
  apply (later_non_ascii_make_clears jpegMakeCleared 20 12 false 2 i 1 3
           make model H);
    [lia|reflexivity|intros j Hj; lia|reflexivity|lia].
Defined.

(** ** What a decoded string looks like *)

Lemma noNul_app (a b : string) :
  noNul (a ++ b) = noNul a && noNul b.
Proof.
  induction a as [|c a IH]; simpl; [reflexivity|].
  now rewrite IH, andb_assoc.
Qed.

Lemma noNul_trimStart (s : string) : noNul s = true -> noNul (trimStart s) = true.
Proof.
  induction s as [|c s IH]; simpl; [reflexivity|]. intros H.
  destruct (isWhiteSpace c); [|exact H].
  apply andb_true_iff in H. now apply IH.
Qed.

Lemma noNul_trimEnd (s : string) : noNul s = true -> noNul (trimEnd s) = true.
Proof.
  induction s as [|c s IH]; simpl; [reflexivity|]. intros H.
  apply andb_true_iff in H. destruct H as [Hc Hs].
  destruct (isWhiteSpace c && isEmpty (trimEnd s)); [reflexivity|].
  simpl. rewrite Hc. now apply IH.
Qed.

Lemma noNul_trim (s : string) : noNul s = true -> noNul (trim s) = true.
Proof. intros H. now apply noNul_trimEnd, noNul_trimStart. Qed.

Lemma string_length_app (a b : string) :
  String.length (a ++ b) = (String.length a + String.length b)%nat.
Proof. induction a as [|c a IH]; simpl; [reflexivity|now rewrite IH]. Qed.

Lemma getUint8_byte (view : DataView) (o v : Z) :
  getUint8 view o = Ok v -> exists b, v = byteValue b.
Proof.
  unfold getUint8. destruct ((0 <=? o) && (o <? byteLength view));
    [|discriminate].
  destruct (nth_error view (Z.to_nat o)) as [b|]; [|discriminate].
  intros H. apply Ok_inj in H. eauto.
Qed.

Lemma fromCharCode_noNul (b : byte) :
  (byteValue b =? 0) = false -> noNul (fromCharCode (byteValue b)) = true.
Proof.
  rewrite fromCharCode_byte.
  destruct b; intros H; first [reflexivity | discriminate H].
Qed.

(** The copy loop appends at most [n] characters, none of them NUL. *)
Lemma readChars_shape (n : nat) (view : DataView) (offset : Z) :
  forall i str s,
    readChars n view offset i str = Ok s ->
    (String.length s <= String.length str + n)%nat
    /\ (noNul str = true -> noNul s = true).
Proof.
  induction n as [|n IH]; intros i str s H.
  - simpl in H. apply Ok_inj in H. subst s. split; [lia|auto].
  - cbn [readChars] in H.
    destruct (offset + i >=? byteLength view).
    { apply Ok_inj in H. subst s. split; [lia|auto]. }
    peel H. destruct (getUint8_byte _ _ _ Hv) as (b & ->).
    destruct (byteValue b =? 0) eqn:E.
    { apply Ok_inj in H. subst s. split; [lia|auto]. }
    apply IH in H. destruct H as [Hlen Hnul].
    rewrite string_length_app in Hlen. rewrite noNul_app in Hnul.
    rewrite (fromCharCode_noNul b E), andb_true_r in Hnul.
    rewrite fromCharCode_byte in Hlen. simpl in Hlen. split; [lia|exact Hnul].
Qed.

Lemma getStringFromEntry_shape (view : DataView) (eo ts : Z) (le : bool)
  (count : Z) (s : string) :
  getStringFromEntry view eo ts le = Ok s ->
  getUint32 view (eo + 4) le = Ok count ->
  Z.of_nat (String.length s) <= count /\ noNul s = true.
Proof.
  unfold getStringFromEntry. intros H Hc. peel H. peel H.
  rewrite Hc in Hv0. apply Ok_inj in Hv0. subst v0.
  pose proof (getUint32_Ok _ _ _ _ Hc) as (_ & _ & Hpos).
  destruct (v =? 2); simpl in H.
  - peel H. apply readChars_shape in H. destruct H as [Hlen Hnul].
    simpl in Hlen. split; [lia|now apply Hnul].
  - apply Ok_inj in H. subst s. simpl. split; [lia|reflexivity].
Qed.

Lemma getStringFromEntry_noNul (view : DataView) (eo ts : Z) (le : bool)
  (s : string) :
  getStringFromEntry view eo ts le = Ok s -> noNul s = true.
Proof.
  intros H. pose proof H as H'. unfold getStringFromEntry in H'.
  peel H'. peel H'. exact (proj2 (getStringFromEntry_shape _ _ _ _ _ _ H Hv0)).
Qed.

(** A decoded value has at most [count] characters and holds no NUL. *)
Theorem decoded_string_bounded (view : DataView) (entryOffset tiffStart : Z)
  (le : bool) (count : Z) (s : string) :
  getStringFromEntry view entryOffset tiffStart le = Ok s ->
  getUint32 view (entryOffset + 4) le = Ok count ->
  Z.of_nat (String.length s) <= count /\ noNul s = true.
Proof. exact (getStringFromEntry_shape view entryOffset tiffStart le count s). Qed.

Lemma decoded_string_bounded_witness :
  Z.of_nat (String.length "Canon") <= 6 /\ noNul "Canon" = true.
Proof.
  apply (decoded_string_bounded (jpegMakeModel "Canon" "Canon EOS R5")
           22 12 false 6 "Canon"); reflexivity.
Defined.

Lemma ifdLoop_noNul (view : DataView) (ds ts : Z) (le : bool) (n : nat)
  (i : Z) (make model : string) :
  ifdLoop n view ds ts le 0 "" "" = Ok (i, make, model) ->
  noNul make = true /\ noNul model = true.
Proof.
  intros H. split.
  - destruct (ifdLoop_make_source _ _ _ _ _ _ _ _ _ _ _ H)
      as [->|(k & _ & _ & Hs)]; [reflexivity|].
    exact (getStringFromEntry_noNul _ _ _ _ _ Hs).
  - destruct (ifdLoop_model_source _ _ _ _ _ _ _ _ _ _ _ H)
      as [->|(k & _ & _ & Hs)]; [reflexivity|].
    exact (getStringFromEntry_noNul _ _ _ _ _ Hs).
Qed.

Lemma composeDevice_clean (make model s : string) :
  composeDevice make model = Some s ->
  trim s = s
  /\ (noNul make = true -> noNul model = true -> noNul s = true).
Proof.
  unfold composeDevice.
  destruct (negb (isEmpty make) || negb (isEmpty model)); [|discriminate].
  cbv zeta. destruct (startsWith (trim model) (trim make)); intros H;
    injection H as <-.
  - split; [apply trim_idem|]. intros _ Hmd. now apply noNul_trim.
  - split; [apply trim_idem|]. intros Hmk Hmd. apply noNul_trim.
    rewrite noNul_app, (noNul_trim _ Hmk). cbn [noNul andb].
    rewrite (noNul_trim _ Hmd). reflexivity.
Qed.

(** A device string that is returned is trimmed (it neither starts nor ends
    with white space) and holds no NUL. *)
Theorem device_string_clean (view : DataView) (s : string) :
  onload view = Some s -> trim s = s /\ noNul s = true.
Proof.
  intros H. apply onload_Some in H. destruct H as [_ (b & _ & _ & Hp)].
  apply parseExifChunk_Some in Hp.
  destruct Hp as (mk & md & (bo & ifd & n & i & _ & _ & _ & _ & _ & Hl) & Hc).
  apply ifdLoop_noNul in Hl. destruct Hl as [Hmk Hmd].
  apply composeDevice_clean in Hc. destruct Hc as [Ht Hn]. auto.
Qed.

Lemma device_string_clean_witness :
  trim "Xabcd  e" = "Xabcd  e" /\ noNul "Xabcd  e" = true.
Proof.
  apply (device_string_clean (jpegMakeModel " Xabcd " "  Xabcd  e ")).
  vm_compute. reflexivity.
Defined.

(** ** The 64 KiB prefix *)

(** Only the first 65536 bytes of the file are looked at: what follows them
    does not change the result. *)
Theorem bytes_after_64k_ignored (mime : string) (l extra : list byte) :
  (Z.to_nat 65536 <= List.length l)%nat ->
  getExifDeviceData (mkFile mime (l ++ extra))
  = getExifDeviceData (mkFile mime l).
Proof.
  intros H. unfold getExifDeviceData, slice64k. cbn [type bytes].
  rewrite firstn_app.
  replace (Z.to_nat 65536 - List.length l)%nat with 0%nat by lia.
  cbn [firstn]. now rewrite app_nil_r.
Qed.

Lemma bytes_after_64k_ignored_witness :
  getExifDeviceData
    (mkFile "image/jpeg"
       (repeat x00 (Z.to_nat 65536) ++ jpegMakeModel "Canon" "Canon EOS R5"))
  = getExifDeviceData (mkFile "image/jpeg" (repeat x00 (Z.to_nat 65536))).
Proof.
  apply bytes_after_64k_ignored. rewrite repeat_length. apply Nat.le_refl.
Defined.

(** ** What the user sees *)

(** The metadata cell shows a device exactly when the parser returned a
    non-empty string; when both decoded strings are blank, empty or made of
    white space, it shows "Not found in file" although the parser may have
    returned a present, empty string. *)
Theorem blank_device_shown_as_not_found :
  (forall (r : option string) (device : string),
      renderMetadataCell r = DeviceName device
      <-> r = Some device /\ device <> "")
  /\ (forall (view : DataView) (tiffStart : Z) (make model : string),
         rawStrings view tiffStart make model ->
         trim make = "" -> trim model = "" ->
         renderMetadataCell (parseExifChunk view tiffStart) = NotFoundInFile).
Proof.
  split.
  - intros r device. unfold renderMetadataCell. split.
    + destruct r as [d|]; [|discriminate].
      destruct (isEmpty d) eqn:E; [discriminate|]. intros H.
      injection H as ->. split; [reflexivity|]. now apply isEmpty_false.
    + intros [-> Hne]. apply isEmpty_false in Hne. now rewrite Hne.
  - intros view tiffStart make model Hraw Hmk Hmd.
    rewrite (parseExifChunk_raw _ _ _ _ Hraw). unfold composeDevice.
    destruct (negb (isEmpty make) || negb (isEmpty model)); [|reflexivity].
    cbv zeta. rewrite Hmk, Hmd. reflexivity.
Qed.

Lemma blank_device_shown_as_not_found_witness :
  renderMetadataCell (parseExifChunk (jpegMakeModel "      " "") 12)
  = NotFoundInFile.
Proof.
  destruct blank_device_shown_as_not_found as [_ H].
  apply (H _ _ "      " ""); [|reflexivity|reflexivity].
  exists 0x4D4D, 8, 2, 2. cbv zeta.
  repeat (split; [first [lia | vm_compute; reflexivity]|]).
  vm_compute. reflexivity.
Defined.

(** * The chart *)

Lemma insertSorted_perm {A : Type} (comparefn : A -> A -> Q) (x : A)
  (l : list A) :
  Permutation (x :: l) (insertSorted comparefn x l).
Proof.
  induction l as [|y l IH]; simpl; [apply Permutation_refl|].
  destruct (Qle_bool (comparefn x y) 0); [apply Permutation_refl|].
  apply (perm_trans (perm_swap y x l)). now apply perm_skip.
Qed.

Lemma arraySort_perm {A : Type} (comparefn : A -> A -> Q) (l : list A) :
  Permutation l (arraySort comparefn l).
Proof.
  induction l as [|x l IH]; simpl; [constructor|].
  apply (perm_trans (perm_skip x IH)). apply insertSorted_perm.
Qed.

Lemma byScoreDescending_le (a b : DetectedTool) :
  Qle_bool (byScoreDescending a b) 0 = true <-> scoreDescending a b.
Proof.
  unfold byScoreDescending, scoreDescending. rewrite Qle_bool_iff.
  split; intros H; lra.
Qed.

Lemma insertSorted_sorted (x : DetectedTool) (l : list DetectedTool) :
  StronglySorted scoreDescending l ->
  StronglySorted scoreDescending (insertSorted byScoreDescending x l).
Proof.
  induction 1 as [|y l Hs IH Hall]; simpl.
  - constructor; constructor.
  - destruct (Qle_bool (byScoreDescending x y) 0) eqn:E.
    + apply byScoreDescending_le in E. constructor.
      * now constructor.
      * constructor; [exact E|].
        apply (Forall_impl _ (P := scoreDescending y)); [|exact Hall].
        unfold scoreDescending in *. intros z Hz. lra.
    + constructor; [exact IH|].
      apply (Permutation_Forall (insertSorted_perm _ x l)).
      constructor; [|exact Hall].
      unfold scoreDescending.
      destruct (Qlt_le_dec (likelihoodScore y) (likelihoodScore x)) as [Hlt|Hle];
        [|exact Hle].
      assert (Hc : Qle_bool (byScoreDescending x y) 0 = true)
        by (apply byScoreDescending_le; unfold scoreDescending; lra).
      congruence.
Qed.

Lemma sortedData_sorted (data : list DetectedTool) :
  StronglySorted scoreDescending (sortedData data).
Proof.
  unfold sortedData. induction data as [|x data IH]; simpl; [constructor|].
  now apply insertSorted_sorted.
Qed.

(** The bars are the tools of the result, each once, by descending score. *)
Theorem sortedData_sorted_permutation (data : list DetectedTool) :
  Permutation data (sortedData data)
  /\ StronglySorted scoreDescending (sortedData data).
Proof. split; [apply arraySort_perm|apply sortedData_sorted]. Qed.

Lemma insertSorted_filter (q : Q) (x : DetectedTool) (l : list DetectedTool) :
  filter (fun t => Qeq_bool (likelihoodScore t) q)
    (insertSorted byScoreDescending x l)
  = filter (fun t => Qeq_bool (likelihoodScore t) q) (x :: l).
Proof.
  induction l as [|y l IH]; [reflexivity|]. cbn [insertSorted].
  destruct (Qle_bool (byScoreDescending x y) 0) eqn:E; [reflexivity|].
  cbn [filter] in *. rewrite IH.
  destruct (Qeq_bool (likelihoodScore x) q) eqn:Ex; [|reflexivity].
  destruct (Qeq_bool (likelihoodScore y) q) eqn:Ey; [|reflexivity].
  apply Qeq_bool_iff in Ex, Ey.
  assert (Hc : Qle_bool (byScoreDescending x y) 0 = true)
    by (apply byScoreDescending_le; unfold scoreDescending; lra).
  congruence.
Qed.

(** The sort is stable: tools of equal score keep the order in which the
    result lists them. *)
Theorem sortedData_stable (data : list DetectedTool) (q : Q) :
  filter (fun t => Qeq_bool (likelihoodScore t) q) (sortedData data)
  = filter (fun t => Qeq_bool (likelihoodScore t) q) data.
Proof.
  unfold sortedData. induction data as [|x data IH]; [reflexivity|].
  cbn [arraySort fold_right]. rewrite insertSorted_filter.
  cbn [filter]. fold (arraySort byScoreDescending data). now rewrite IH.
Qed.

Lemma sorted_map_split {A B : Type} (R : A -> A -> Prop) (f : A -> B)
  (l : list A) (l1 : list B) (c1 : B) (l2 : list B) (c2 : B) (l3 : list B) :
  StronglySorted R l ->
  map f l = (l1 ++ c1 :: l2 ++ c2 :: l3)%list ->
  exists a b, c1 = f a /\ c2 = f b /\ R a b.
Proof.
  intros Hs. revert l1. induction Hs as [|a l Hs IH Hall]; intros l1 H.
  - destruct l1; discriminate.
  - destruct l1 as [|c l1]; simpl in H.
    + injection H as Ha Hl.
      apply map_eq_app in Hl. destruct Hl as (m2 & m3 & -> & _ & Hm3).
      apply map_eq_cons in Hm3. destruct Hm3 as (b & m4 & -> & Hb & _).
      exists a, b. split; [auto|]. split; [auto|].
      rewrite Forall_forall in Hall. apply Hall.
      apply in_or_app. right. now left.
    + injection H as _ Hl. now apply (IH l1).
Qed.

(** Along the bars the colours never get hotter: no red bar follows an
    amber or blue one, and after a blue bar all bars are blue. *)
Theorem barColors_grouped (data : list DetectedTool)
  (l1 : list string) (c1 : string) (l2 : list string) (c2 : string)
  (l3 : list string) :
  barColors data = (l1 ++ c1 :: l2 ++ c2 :: l3)%list ->
  (c2 = "#ef4444" -> c1 = "#ef4444")
  /\ (c1 = "#3b82f6" -> c2 = "#3b82f6").
Proof.
  intros H. unfold barColors in H.
  destruct (sorted_map_split scoreDescending _ _ _ _ _ _ _
              (sortedData_sorted data) H)
    as (a & b & -> & -> & Hab).
  unfold scoreDescending in Hab. unfold getBarColor.
  destruct (Qle_bool 8 (likelihoodScore a)) eqn:Ea8;
    destruct (Qle_bool 8 (likelihoodScore b)) eqn:Eb8;
    destruct (Qle_bool 5 (likelihoodScore a)) eqn:Ea5;
    destruct (Qle_bool 5 (likelihoodScore b)) eqn:Eb5;
    split; intros Hc; try reflexivity; try discriminate Hc;
    exfalso;
    repeat match goal with
      | E : Qle_bool _ _ = true |- _ => apply Qle_bool_iff in E
      | E : Qle_bool ?x ?y = false |- _ =>
          assert (~ (x <= y)%Q)
            by (intros Hle; apply Qle_bool_iff in Hle; congruence);
          clear E
      end; lra.
Qed.

Lemma barColors_grouped_witness :
  ("#3b82f6" = "#ef4444" -> "#ef4444" = "#ef4444")
  /\ ("#ef4444" = "#3b82f6" -> "#3b82f6" = "#3b82f6").
Proof.
  apply (barColors_grouped
           [mkTool "Lightroom" (3 # 1) "grading";
            mkTool "Photoshop" (9 # 1) "healing";
            mkTool "Filters" (13 # 2) "grain"]
           [] "#ef4444" ["#f59e0b"] "#3b82f6" []).
  vm_compute. reflexivity.
Defined.

(** * The data URL *)

Lemma split_noComma (s : string) :
  noComma s = true -> split "," s = [s].
Proof.
  induction s as [|c s IH]; [reflexivity|]. cbn [noComma split]. intros H.
  apply andb_true_iff in H. destruct H as [Hc Hs].
  apply negb_true_iff in Hc. rewrite Hc, (IH Hs). reflexivity.
Qed.

Lemma split_first_comma (prefix rest : string) :
  noComma prefix = true ->
  split "," (prefix ++ String "," rest) = prefix :: split "," rest.
Proof.
  induction prefix as [|c prefix IH]; [reflexivity|].
  cbn [noComma append split]. intros H.
  apply andb_true_iff in H. destruct H as [Hc Hs].
  apply negb_true_iff in Hc. rewrite Hc, (IH Hs). reflexivity.
Qed.

(** From a data URL, a header without a comma, a comma and a payload
    without a comma, the part that is sent is the payload; from a string
    without a comma it is [undefined]. *)
Theorem data_url_payload (file : File) :
  (forall header payload : string,
      noComma header = true -> noComma payload = true ->
      data (fileToGenerativePart file (header ++ String "," payload))
      = Some payload)
  /\ (forall s : string,
         noComma s = true -> data (fileToGenerativePart file s) = None).
Proof.
  split.
  - intros header payload Hh Hp. unfold fileToGenerativePart. cbn [data].
    now rewrite (split_first_comma _ _ Hh), (split_noComma _ Hp).
  - intros s Hs. unfold fileToGenerativePart. cbn [data].
    now rewrite (split_noComma _ Hs).
Qed.

Lemma data_url_payload_witness :
  data (fileToGenerativePart (mkFile "image/jpeg" [])
          "data:image/jpeg;base64,/9j/4AAQSkZJRg==")
  = Some "/9j/4AAQSkZJRg==".
Proof.
  destruct (data_url_payload (mkFile "image/jpeg" [])) as [H _].
  apply (H "data:image/jpeg;base64" "/9j/4AAQSkZJRg=="); reflexivity.
Defined.

(** * The page *)






(** An analysis is not tied to the image on the page.  When the image is
    removed and another one chosen while the analysis is under way, its
    result, with the metadata device of the removed file, is shown for the
    new image once it settles. *)
Theorem result_of_removed_image_is_shown (fileA fileB : File)
  (urlA urlB : string) (aiData : AnalysisResult) :
  startsWith (type fileA) "image/" = true ->
  startsWith (type fileB) "image/" = true ->
  userRun initialSession
    [FileChosen (Some fileA) urlA; AnalyzeClicked; RemoveClicked;
     FileChosen (Some fileB) urlB; AnalysisSettled 0 (Fulfilled aiData)]
  = Some {| app := {| imageFile := Some fileB;
                      imagePreview := Some urlB;
                      analysisState := SUCCESS;
                      result := Some (withMetadataDevice aiData
                                        (getExifDeviceData fileA));
                      errorMsg := None |};
            pending := [] |}.
Proof.
  intros HA HB. cbn [userRun userStep initialSession initialState app
                     imagePreview handleFileChange].
  rewrite HA.
  cbn [userRun userStep app pending imageFile imagePreview analysisState
         handleAnalyze_start removeImage handleFileChange result errorMsg
         List.app].
  rewrite HB. reflexivity.
Qed.

Lemma result_of_removed_image_is_shown_witness :
  exists s,
    userRun initialSession
      [FileChosen (Some (mkFile "image/jpeg"
                           (jpegMakeModel "Canon" "Canon EOS R5"))) "blob:1";
       AnalyzeClicked; RemoveClicked;
       FileChosen (Some (mkFile "image/png" [])) "blob:2";
       AnalysisSettled 0 (Fulfilled (mkResult "edited" (3 # 1) "DSLR" None []))]
    = Some s
    /\ imageFile (app s) = Some (mkFile "image/png" [])
    /\ option_map metadataDevice (result (app s))
       = Some (Some "Canon EOS R5").
Proof.
  eexists. split.
  - apply (result_of_removed_image_is_shown
             (mkFile "image/jpeg" (jpegMakeModel "Canon" "Canon EOS R5"))
             (mkFile "image/png" []) "blob:1" "blob:2"
             (mkResult "edited" (3 # 1) "DSLR" None [])); reflexivity.
  - split; [reflexivity|]. vm_compute. reflexivity.
Defined.
